(** * Telegram movie-search bot: a shallow embedding and its properties

    The development follows the Python sources:
    - [config.py]         the size ceiling [MAX_FILE_SIZE];
    - [scraper.py]        [WebScraper.search_files], [WebScraper.get_magnet_link];
    - [file_handler.py]   [FileHandler.download_file], [FileHandler.cleanup_file];
    - [standalone_bot.py] [TelegramBot.process_message],
                          [TelegramBot.handle_callback],
                          [TelegramBot._handle_file_selection].

    Modelling conventions.
    - A Python [str] is a Rocq [string] holding its UTF-8 bytes.  Operations
      that compare or copy characters ([startswith], [in], [replace],
      [split], concatenation, and [s[:n]] as [slice_chars]) are exact on
      every string.  The character-class operations ([lower], [strip],
      [int]) are given on the ASCII range, where bytes and code points
      coincide: they agree with Python on every string for which [is_ascii]
      holds, and a theorem whose conclusion depends on what they do to a
      text carries [is_ascii] of that text as a hypothesis.
    - Python integers are [Z].
    - Handlers run in a small state-and-exception monad over a [world] that
      holds the session dictionary, the disk, and the trace of calls made to
      the outside (bot API calls and HTTP requests).  What the outside
      answers (HTTP replies, API faults, the random file name) is an explicit
      input.
    - Logging calls have no effect on any modelled state and are left out. *)

From Stdlib Require Import ZArith List Sorted Permutation Lia Bool.
From Stdlib Require Import Ascii String DecimalString DecimalPos.
From stdpp Require Import gmap strings.
Import ListNotations.

Local Open Scope string_scope.
Local Open Scope Z_scope.

(** ** Python string operations *)

Module PyStr.

(** Every character of [s] is in the ASCII range: each code point is one
    byte below 128.  This is the domain on which [lower], [strip] and [int]
    below are Python's. *)
Fixpoint is_ascii (s : string) : bool :=
  match s with
  | EmptyString => true
  | String c r => (nat_of_ascii c <? 128)%nat && is_ascii r
  end.

(** [str.isspace] on one ASCII character: TAB, LF, VT, FF, CR, the four
    separators FS, GS, RS, US, and the space. *)
Definition isspace (c : ascii) : bool :=
  let n := nat_of_ascii c in
  ((9 <=? n)%nat && (n <=? 13)%nat) || ((28 <=? n)%nat && (n <=? 32)%nat).

(** [str.lower] on one ASCII character. *)
Definition lower_char (c : ascii) : ascii :=
  let n := nat_of_ascii c in
  if ((65 <=? n)%nat && (n <=? 90)%nat)%bool then ascii_of_nat (n + 32) else c.

(** [s.lower()] for an ASCII [s] *)
Fixpoint lower (s : string) : string :=
  match s with
  | EmptyString => EmptyString
  | String c r => String (lower_char c) (lower r)
  end.

(** [s.lstrip()] *)
Fixpoint lstrip (s : string) : string :=
  match s with
  | EmptyString => EmptyString
  | String c r => if isspace c then lstrip r else s
  end.

(** [s.rstrip()] *)
Fixpoint rstrip (s : string) : string :=
  match s with
  | EmptyString => EmptyString
  | String c r =>
      match rstrip r with
      | EmptyString => if isspace c then EmptyString else String c EmptyString
      | r' => String c r'
      end
  end.

(** [s.strip()] for an ASCII [s] *)
Definition strip (s : string) : string := rstrip (lstrip s).

(** [s.startswith(p)] *)
Fixpoint startswith (p s : string) : bool :=
  match p, s with
  | EmptyString, _ => true
  | String a p', String b s' => if Ascii.eqb a b then startswith p' s' else false
  | String _ _, EmptyString => false
  end.

(** [s[n:]] for [n >= 0] *)
Fixpoint slice_from (n : nat) (s : string) : string :=
  match n, s with
  | O, _ => s
  | S n', String _ r => slice_from n' r
  | S _, EmptyString => EmptyString
  end.

(** The first [n] bytes of [s]: [s[:n]] for an ASCII [s]. *)
Fixpoint slice_to (n : nat) (s : string) : string :=
  match n, s with
  | S n', String c r => String c (slice_to n' r)
  | _, _ => EmptyString
  end.

(** A byte [10xxxxxx], which continues a UTF-8 sequence. *)
Definition is_continuation (c : ascii) : bool :=
  let n := nat_of_ascii c in
  ((128 <=? n)%nat && (n <? 192)%nat)%bool.

(** [s[:n]] for [n >= 0]: the first [n] code points of [s].  [n] counts the
    code points still to take; a sequence is taken whole, its continuation
    bytes following its first byte. *)
Fixpoint slice_chars (n : nat) (s : string) : string :=
  match s with
  | EmptyString => EmptyString
  | String c r =>
      if is_continuation c then String c (slice_chars n r)
      else match n with
           | O => EmptyString
           | S n' => String c (slice_chars n' r)
           end
  end.

(** [s.endswith(p)] *)
Definition endswith (p s : string) : bool :=
  (String.length p <=? String.length s)%nat
  && String.eqb (slice_from (String.length s - String.length p) s) p.

(** [sub in s] *)
Fixpoint contains (sub s : string) : bool :=
  startswith sub s
  || match s with
     | EmptyString => false
     | String _ r => contains sub r
     end.

(** [s.replace(old, new)]: occurrences of [old] are found from the left and
    do not overlap.  [skip] counts the characters of a matched occurrence
    that are still to be passed over.  With an empty [old], Python puts [new]
    before every character and at the end. *)
Fixpoint replace_from (old new : string) (skip : nat) (s : string) : string :=
  match s with
  | EmptyString =>
      match old with EmptyString => new | _ => EmptyString end
  | String c r =>
      match skip with
      | S k => replace_from old new k r
      | O =>
          match old with
          | EmptyString => new +:+ String c (replace_from old new O r)
          | String _ old' =>
              if startswith old s
              then new +:+ replace_from old new (String.length old') r
              else String c (replace_from old new O r)
          end
      end
  end.

Definition replace (old new s : string) : string := replace_from old new O s.

(** [s.split(sep)] for a one-character separator: the pieces between the
    separators, never an empty list. *)
Fixpoint split (sep : ascii) (s : string) : list string :=
  match s with
  | EmptyString => [EmptyString]
  | String c r =>
      if Ascii.eqb c sep then EmptyString :: split sep r
      else match split sep r with
           | p :: ps => String c p :: ps
           | [] => [String c EmptyString]
           end
  end.

(** [str(n)] for an integer *)
Definition str_of_Z (n : Z) : string := NilZero.string_of_int (Z.to_int n).

(** [not s]: the empty string is the only falsy string *)
Definition is_empty (s : string) : bool :=
  match s with EmptyString => true | _ => false end.

(** The whitespace that [int()] skips around an ASCII literal: TAB, LF, VT,
    FF, CR and the space (the separators FS..US are not skipped). *)
Definition int_space (c : ascii) : bool :=
  let n := nat_of_ascii c in
  ((9 <=? n)%nat && (n <=? 13)%nat) || (n =? 32)%nat.

Fixpoint int_lstrip (s : string) : string :=
  match s with
  | EmptyString => EmptyString
  | String c r => if int_space c then int_lstrip r else s
  end.

Fixpoint int_rstrip (s : string) : string :=
  match s with
  | EmptyString => EmptyString
  | String c r =>
      match int_rstrip r with
      | EmptyString => if int_space c then EmptyString else String c EmptyString
      | r' => String c r'
      end
  end.

Definition digit_of (c : ascii) : option Z :=
  let n := nat_of_ascii c in
  if ((48 <=? n)%nat && (n <=? 57)%nat)%bool then Some (Z.of_nat (n - 48)) else None.

(** Digits of a decimal literal after its first digit: a digit, or one
    underscore followed by a digit. [acc] is the value read so far. *)
Fixpoint int_digits (acc : Z) (s : string) : option Z :=
  match s with
  | EmptyString => Some acc
  | String c r =>
      match digit_of c with
      | Some d => int_digits (10 * acc + d) r
      | None =>
          if Ascii.eqb c "_"%char then
            match r with
            | String c' r' =>
                match digit_of c' with
                | Some d => int_digits (10 * acc + d) r'
                | None => None
                end
            | EmptyString => None
            end
          else None
      end
  end.

Definition int_unsigned (s : string) : option Z :=
  match s with
  | String c r =>
      match digit_of c with
      | Some d => int_digits d r
      | None => None
      end
  | EmptyString => None
  end.

(** [int(s)] in base 10 for an ASCII literal; [None] stands for
    [ValueError].  The interpreter's cap on the number of digits (4300 by
    default from Python 3.11 on) is not modelled: see [int_plain]. *)
Definition int (s : string) : option Z :=
  match int_rstrip (int_lstrip s) with
  | String "-"%char r => option_map Z.opp (int_unsigned r)
  | String "+"%char r => int_unsigned r
  | t => int_unsigned t
  end.

(** The texts on which [int] is that of every interpreter: ASCII, and no
    longer than 4300 characters, so that the cap on the digits of a literal
    does not apply. *)
Definition int_plain (s : string) : bool :=
  is_ascii s && (String.length s <=? 4300)%nat.

(** The value of a decimal numeral read from the left, [acc] being the
    value of the digits already read. *)
Fixpoint uint_value (acc : Z) (d : Decimal.uint) : Z :=
  match d with
  | Decimal.Nil => acc
  | Decimal.D0 r => uint_value (10 * acc) r
  | Decimal.D1 r => uint_value (10 * acc + 1) r
  | Decimal.D2 r => uint_value (10 * acc + 2) r
  | Decimal.D3 r => uint_value (10 * acc + 3) r
  | Decimal.D4 r => uint_value (10 * acc + 4) r
  | Decimal.D5 r => uint_value (10 * acc + 5) r
  | Decimal.D6 r => uint_value (10 * acc + 6) r
  | Decimal.D7 r => uint_value (10 * acc + 7) r
  | Decimal.D8 r => uint_value (10 * acc + 8) r
  | Decimal.D9 r => uint_value (10 * acc + 9) r
  end.

(** Every character of [s] is one of [0-9]. *)
Fixpoint all_digits (s : string) : bool :=
  match s with
  | EmptyString => true
  | String c r => (match digit_of c with Some _ => true | None => false end)
                  && all_digits r
  end.

End PyStr.

Import PyStr.

(** ** config.py *)

(** [MAX_FILE_SIZE = 50 * 1024 * 1024] *)
Definition MAX_FILE_SIZE : Z := 50 * 1024 * 1024.

(** ** scraper.py *)

Module Scraper.

(** The part of the [list_movies.json] reply that [search_files] reads, typed
    as the API documents it.  A field is [None] when its key is absent, which
    is where the [.get] defaults apply.  [m_rating] is a JSON number that the
    code only prints; it is carried by the text Python prints for it. *)
Record torrent := {
  t_quality : option string;
  t_size : option string;
  t_seeds : option Z;
  t_url : option string;
  t_hash : option string
}.

Record movie := {
  m_title_long : option string;
  m_rating : option string;
  m_year : option Z;
  m_id : option Z;
  m_url : option string;
  m_medium_cover_image : option string;
  m_torrents : option (list torrent)
}.

Record movies_data := {
  movie_count : option Z;
  movies : option (list movie)
}.

Record api_body := {
  status : option string;
  data : option movies_data
}.

(** What the GET of [list_movies.json] gives: a body, or an exception
    somewhere inside the [try] block (out of [session.get],
    [raise_for_status], [response.json()], or out of the processing of a
    body whose fields do not have the types above). *)
Inductive api_reply :=
| ReplyRaises
| ReplyBody (body : api_body).

(** One entry of the list [search_files] returns. *)
Record result := {
  r_title : string;
  r_url : string;
  r_size : string;
  r_type : string;
  r_seeds : Z;
  r_movie_id : option Z;
  r_movie_url : option string;
  r_quality : string;
  r_thumbnail : option string;
  r_hash : string
}.

(** [d.get(key, default)] *)
Definition get {A} (field : option A) (default : A) : A :=
  match field with Some v => v | None => default end.

(** [file_type and file_type.lower() != quality.lower()] *)
Definition quality_mismatch (file_type : option string) (quality : string) : bool :=
  match file_type with
  | Some ft => negb (is_empty ft) && negb (String.eqb (lower ft) (lower quality))
  | None => false
  end.

(** The body of the inner loop: one torrent of one movie. *)
Definition torrent_results (file_type : option string) (m : movie) (t : torrent)
  : list result :=
  let title := get (m_title_long m) "Unknown Title" in
  let rating := get (m_rating m) "0" in
  let year := match m_year m with Some y => str_of_Z y | None => "Unknown" end in
  let quality := get (t_quality t) "Unknown" in
  if quality_mismatch file_type quality then []
  else
    [ {| r_title := title +:+ " (" +:+ year +:+ ") - " +:+ quality
                    +:+ " [Rating: " +:+ rating +:+ "]";
         r_url := get (t_url t) "";
         r_size := get (t_size t) "Unknown size";
         r_type := "video";
         r_seeds := get (t_seeds t) 0;
         r_movie_id := m_id m;
         r_movie_url := m_url m;
         r_quality := quality;
         r_thumbnail := m_medium_cover_image m;
         r_hash := get (t_hash t) "" |} ].

(** The two nested loops, in order. *)
Definition collect (file_type : option string) (ms : list movie) : list result :=
  flat_map (fun m => flat_map (torrent_results file_type m) (get (m_torrents m) [])) ms.

(** [results.sort(key=lambda x: x.get('seeds', 0), reverse=True)]: a stable
    sort, larger keys first; entries with equal keys keep their order. *)
Fixpoint insert_by_seeds (x : result) (l : list result) : list result :=
  match l with
  | [] => [x]
  | y :: l' =>
      if r_seeds x <? r_seeds y then y :: insert_by_seeds x l' else x :: l
  end.

Definition sort_by_seeds (l : list result) : list result :=
  fold_right insert_by_seeds [] l.

(** [a] may stand before [b] in a list sorted by seeds, larger first. *)
Definition seeds_ge (a b : result) : Prop := r_seeds b <= r_seeds a.

(** [search_files(url, query, file_type)].  [url] is ignored and [query] only
    goes into the request, so the list depends on the reply and the filter.
    Every failure inside the [try] gives the empty list. *)
Definition search_files (reply : api_reply) (url query : string)
    (file_type : option string) : list result :=
  match reply with
  | ReplyRaises => []
  | ReplyBody body =>
      if negb (match status body with Some s => String.eqb s "ok" | None => false end)
      then []
      else
        let movies_data := get (data body) {| movie_count := None; movies := None |} in
        if get (movie_count movies_data) 0 =? 0 then []
        else
          let results := collect file_type (get (movies movies_data) []) in
          firstn 10 (sort_by_seeds results)
  end.

(** The request [search_files] sends. *)
Definition base_url : string := "https://yts.mx/api/v2".

Definition search_params (query : string) : list (string * string) :=
  [("query_term", query); ("limit", "20"); ("sort_by", "download_count");
   ("order_by", "desc")].

(** [base64.b64encode] *)
Definition b64_alphabet : list ascii :=
  list_ascii_of_string
    "ABCDEFGHIJKLMNOPQRSTUVWXYZabcdefghijklmnopqrstuvwxyz0123456789+/".

Definition b64_digit (n : nat) : ascii := nth n b64_alphabet "="%char.

Fixpoint b64encode (s : string) : string :=
  match s with
  | EmptyString => EmptyString
  | String a EmptyString =>
      let x := nat_of_ascii a in
      String (b64_digit (x / 4))
        (String (b64_digit (x mod 4 * 16)) "==")
  | String a (String b EmptyString) =>
      let x := nat_of_ascii a in
      let y := nat_of_ascii b in
      String (b64_digit (x / 4))
        (String (b64_digit (x mod 4 * 16 + y / 16))
           (String (b64_digit (y mod 16 * 4)) "="))
  | String a (String b (String c r)) =>
      let x := nat_of_ascii a in
      let y := nat_of_ascii b in
      let z := nat_of_ascii c in
      String (b64_digit (x / 4))
        (String (b64_digit (x mod 4 * 16 + y / 16))
           (String (b64_digit (y mod 16 * 4 + z / 64))
              (String (b64_digit (z mod 64)) (b64encode r))))
  end%nat.

Definition trackers : list string :=
  [ "udp://open.demonii.com:1337/announce";
    "udp://tracker.openbittorrent.com:80";
    "udp://tracker.coppersurfer.tk:6969";
    "udp://glotorrents.pw:6969/announce";
    "udp://tracker.opentrackr.org:1337/announce";
    "udp://torrent.gresille.org:80/announce";
    "udp://p4p.arenabg.com:1337";
    "udp://tracker.leechers-paradise.org:6969" ].

(** [sep.join(parts)] *)
Fixpoint join (sep : string) (parts : list string) : string :=
  match parts with
  | [] => EmptyString
  | [p] => p
  | p :: ps => p +:+ sep +:+ join sep ps
  end.

(** [get_magnet_link(torrent_hash, title)] *)
Definition get_magnet_link (torrent_hash title : string) : string :=
  if is_empty torrent_hash then EmptyString
  else
    let encoded_title := b64encode title in
    let tracker_params := join "&" (map (fun tracker => "tr=" +:+ tracker) trackers) in
    "magnet:?xt=urn:btih:" +:+ torrent_hash +:+ "&dn=" +:+ encoded_title
    +:+ "&" +:+ tracker_params.

(** [urllib.parse.quote_plus(s)], byte by byte on the UTF-8 text: letters,
    digits and [_ . - ~] stay, a space becomes [+], any other byte becomes
    [%XX] with upper-case hexadecimal digits. *)
Definition always_safe (c : ascii) : bool :=
  let n := nat_of_ascii c in
  ((48 <=? n) && (n <=? 57) || (65 <=? n) && (n <=? 90)
   || (97 <=? n) && (n <=? 122)
   || (n =? 45) || (n =? 46) || (n =? 95) || (n =? 126))%nat.

Definition upper_hex_digit (n : nat) : ascii :=
  nth n (list_ascii_of_string "0123456789ABCDEF") "0"%char.

Definition quote_byte (c : ascii) : string :=
  let n := nat_of_ascii c in
  if always_safe c then String c EmptyString
  else if (n =? 32)%nat then "+"
  else String "%"%char
         (String (upper_hex_digit (n / 16))
            (String (upper_hex_digit (n mod 16)) EmptyString)).

Fixpoint quote_plus (s : string) : string :=
  match s with
  | EmptyString => EmptyString
  | String c r => quote_byte c +:+ quote_plus r
  end.

(** [get_webtor_link(torrent_hash, title)] *)
Definition get_webtor_link (torrent_hash title : string) : string :=
  if is_empty torrent_hash then EmptyString
  else
    let magnet_link := get_magnet_link torrent_hash title in
    let encoded_magnet := quote_plus magnet_link in
    "https://webtor.io/#" +:+ encoded_magnet.

(** The part of the [movie_details.json] reply that the code reads. *)
Record movie_details := {
  d_title_long : option string;
  d_torrents : option (list torrent)
}.

(** What the GET of [movie_details.json] gives: an exception inside the
    [try], or a body with its [status] and the object under [data.movie]
    ([None] when the key is absent or the object is empty). *)
Inductive details_reply :=
| DetailsRaises
| DetailsBody (status : option string) (movie : option movie_details).

(** [get_movie_details(movie_id)]; [None] stands for the empty dictionary. *)
Definition get_movie_details (reply : details_reply) : option movie_details :=
  match reply with
  | DetailsRaises => None
  | DetailsBody status movie =>
      if negb (match status with Some st => String.eqb st "ok" | None => false end)
      then None
      else movie
  end.

(** One entry of the list [find_direct_download_links] returns. *)
Record link := {
  l_title : string;
  l_url : string;
  l_type : string;
  l_quality : string;
  l_size : string;
  l_magnet : string
}.

(** The body of the loop of [find_direct_download_links]: one torrent. *)
Definition torrent_links (title quality : string) (t : torrent) : list link :=
  let torrent_quality := get (t_quality t) "" in
  if quality_mismatch (Some quality) torrent_quality then []
  else
    let torrent_hash := get (t_hash t) "" in
    if is_empty torrent_hash then []
    else
      [ {| l_title := title +:+ " - " +:+ torrent_quality +:+ " (Stream/Download)";
           l_url := get_webtor_link torrent_hash title;
           l_type := "webtor";
           l_quality := torrent_quality;
           l_size := get (t_size t) "Unknown";
           l_magnet := get_magnet_link torrent_hash title |} ].

(** [find_direct_download_links(movie_id, quality)]; [movie_id] only goes
    into the request. *)
Definition find_direct_download_links (reply : details_reply) (quality : string)
  : list link :=
  match get_movie_details reply with
  | None => []
  | Some movie_details =>
      let title := get (d_title_long movie_details) "Unknown" in
      let torrents := get (d_torrents movie_details) [] in
      flat_map (torrent_links title quality) torrents
  end.

(** The characters of a base64 text. *)
Definition b64_char (c : ascii) : bool :=
  let n := nat_of_ascii c in
  ((48 <=? n) && (n <=? 57) || (65 <=? n) && (n <=? 90)
   || (97 <=? n) && (n <=? 122)
   || (n =? 43) || (n =? 47) || (n =? 61))%nat.

(** Every character of [s] satisfies [p]. *)
Fixpoint all_chars (p : ascii -> bool) (s : string) : bool :=
  match s with
  | EmptyString => true
  | String c r => p c && all_chars p r
  end.

End Scraper.

Import Scraper.

(** ** The world the handlers act on *)

Module World.

(** Exceptions: the class decides which [except] clause takes it, the
    message is [str(e)]. *)
Inductive exn_class :=
| RequestException | ValueError | IndexError | OverflowError | OSError
| ApiException.

Record exn := Exn { class_of : exn_class; str_of : string }.

(** File contents and message bodies. *)
Abbreviation bytes := (list Byte.byte).

(** [user_sessions[user_id]]: the three keys are always stored together, so
    the test ['search_results' not in user_sessions[user_id]] never fires. *)
Record session := {
  search_results : list result;
  query : string;
  file_type : option string
}.

Record button := { button_text : string; callback_data : string }.

(** Calls on the [telebot] object. *)
Inductive api_call :=
| send_message (chat_id : Z) (text : string)
| edit_message_text (text : string) (chat_id message_id : Z)
    (reply_markup : option (list button))
| answer_callback_query (callback_query_id : string) (text : option string)
| send_document (chat_id : Z) (document : bytes) (caption : string).

(** What leaves the process.  An API call is recorded with the fault it met,
    if any. *)
Inductive event :=
| Api (c : api_call) (fault : option string)
| HttpGet (url : string) (params : list (string * string)).

(** [user_sessions] is the module-level dictionary, [disk] the files by
    path, [trace] what has left the process so far.  [faults] tells what the
    coming bot API calls will meet, one entry per call ([None]: the call goes
    through; [Some msg]: it raises with that message); [next_message_id] is
    the id Telegram gives to the next message sent. *)
Record world := {
  user_sessions : gmap Z session;
  disk : gmap string bytes;
  trace : list event;
  faults : list (option string);
  next_message_id : Z
}.

Definition set_sessions (f : gmap Z session -> gmap Z session) (w : world) : world :=
  {| user_sessions := f (user_sessions w); disk := disk w; trace := trace w;
     faults := faults w; next_message_id := next_message_id w |}.

Definition set_disk (f : gmap string bytes -> gmap string bytes) (w : world) : world :=
  {| user_sessions := user_sessions w; disk := f (disk w); trace := trace w;
     faults := faults w; next_message_id := next_message_id w |}.

Definition log (e : event) (w : world) : world :=
  {| user_sessions := user_sessions w; disk := disk w; trace := (trace w ++ [e])%list;
     faults := faults w; next_message_id := next_message_id w |}.

Definition tick (w : world) : world :=
  {| user_sessions := user_sessions w; disk := disk w; trace := trace w;
     faults := tl (faults w); next_message_id := next_message_id w |}.

Definition fresh_message (w : world) : world :=
  {| user_sessions := user_sessions w; disk := disk w; trace := trace w;
     faults := faults w; next_message_id := next_message_id w + 1 |}.

(** State and exceptions.  An exception keeps the state reached so far:
    nothing is rolled back. *)
Inductive outcome (A : Type) :=
| Ret (a : A)
| Raise (e : exn).
Arguments Ret {A} a.
Arguments Raise {A} e.

Definition M (A : Type) : Type := world -> outcome A * world.

Definition ret {A} (a : A) : M A := fun w => (Ret a, w).

Definition raise {A} (c : exn_class) (msg : string) : M A :=
  fun w => (Raise (Exn c msg), w).

Definition bind {A B} (m : M A) (k : A -> M B) : M B :=
  fun w =>
    match m w with
    | (Ret a, w') => k a w'
    | (Raise e, w') => (Raise e, w')
    end.

(** [try: m  except Exception as e: h e] *)
Definition try_except {A} (m : M A) (h : exn -> M A) : M A :=
  fun w =>
    match m w with
    | (Ret a, w') => (Ret a, w')
    | (Raise e, w') => h e w'
    end.

(** [try: m  finally: f] *)
Definition try_finally {A} (m : M A) (f : M unit) : M A :=
  fun w =>
    match m w with
    | (r, w') =>
        match f w' with
        | (Ret _, w'') => (r, w'')
        | (Raise e, w'') => (Raise e, w'')
        end
    end.

Definition modify (f : world -> world) : M unit := fun w => (Ret tt, f w).

Definition gets {A} (f : world -> A) : M A := fun w => (Ret (f w), w).

(** One call on the bot: it takes the next entry of [faults] (none left
    means no fault), is recorded, and raises if there was a fault.
    [send_message] answers with the id of the new message. *)
Definition call_api (c : api_call) : M Z :=
  fun w =>
    let fault := match faults w with f :: _ => f | [] => None end in
    let w1 := log (Api c fault) (tick w) in
    match fault with
    | Some msg => (Raise (Exn ApiException msg), w1)
    | None =>
        match c with
        | send_message _ _ => (Ret (next_message_id w1), fresh_message w1)
        | _ => (Ret 0, w1)
        end
    end.

(** [m] leaves the component [f] of the world as it was. *)
Definition preserves {X A} (f : world -> X) (m : M A) : Prop :=
  forall w, f (snd (m w)) = f w.

(** No exception leaves [m]. *)
Definition never_raises {A} (m : M A) : Prop :=
  forall w, exists a, fst (m w) = Ret a.

(** The [HttpGet] events of a trace. *)
Definition requests (t : list event) : list event :=
  List.filter (fun e => match e with HttpGet _ _ => true | Api _ _ => false end) t.

(** [m] only adds to the trace, and only events that satisfy [P]. *)
Definition emits {A} (P : event -> Prop) (m : M A) : Prop :=
  forall w, exists evs,
    trace (snd (m w)) = (trace w ++ evs)%list /\ Forall P evs.

End World.

Import World.

Declare Scope monad_scope.
Delimit Scope monad_scope with monad.
Notation "x <- m ;; k" := (bind m (fun x => k))
  (at level 100, m at next level, right associativity) : monad_scope.
Notation "m ;;; k" := (bind m (fun _ => k))
  (at level 100, right associativity) : monad_scope.
Local Open Scope monad_scope.

(** ** file_handler.py *)

Module FileHandler.

(** The reply to the GET of the download URL once the connection stands:
    [http_error] is the message of the [HTTPError] that [raise_for_status]
    raises, [content_length] the header as sent, [chunks] what
    [iter_content] yields, [stream_error] the [RequestException] that ends
    the stream early, after those chunks. *)
Record response := {
  http_error : option string;
  content_length : option string;
  chunks : list bytes;
  stream_error : option string
}.

Inductive get_outcome :=
| GetRaises (msg : string)
| GetResponse (r : response).

(** What the outside decides during one [download_file]: the directory
    [DOWNLOAD_DIR] (it depends on [tempfile.gettempdir()]), the ten random
    characters, the answer to the GET, and whether [open] fails. *)
Record download_env := {
  DOWNLOAD_DIR : string;
  random_string : string;
  http_get : get_outcome;
  open_error : option string
}.

(** [os.path.join(a, b)] on POSIX *)
Definition path_join (a b : string) : string :=
  if startswith "/" b then b
  else if is_empty a || endswith "/" a then a +:+ b
  else a +:+ "/" +:+ b.

(** [repr(s)] of an ASCII string, as it appears in the message of the
    [ValueError] of [int]. *)
Definition hex_digit (n : nat) : ascii :=
  nth n (list_ascii_of_string "0123456789abcdef") "0"%char.

Definition dquote : ascii := ascii_of_nat 34.

Definition repr_char (quote c : ascii) : string :=
  let n := nat_of_ascii c in
  if Ascii.eqb c "\"%char then "\\"
  else if Ascii.eqb c quote then String "\"%char (String c EmptyString)
  else if (n =? 10)%nat then "\n"
  else if (n =? 13)%nat then "\r"
  else if (n =? 9)%nat then "\t"
  else if ((n <? 32)%nat || (n =? 127)%nat)%bool
       then "\x" +:+ String (hex_digit (n / 16)) (String (hex_digit (n mod 16)) EmptyString)
  else String c EmptyString.

Fixpoint repr_body (quote : ascii) (s : string) : string :=
  match s with
  | EmptyString => EmptyString
  | String c r => repr_char quote c +:+ repr_body quote r
  end.

Definition repr (s : string) : string :=
  let quote :=
    if contains "'" s && negb (contains (String dquote EmptyString) s)
    then dquote else "'"%char in
  String quote (repr_body quote s) +:+ String quote EmptyString.

(** The message of the [ValueError] that [int(s)] raises: the literal is
    shown by its [repr], cut after 200 characters. *)
Definition invalid_literal (s : string) : string :=
  "invalid literal for int() with base 10: " +:+ slice_chars 200 (repr s).

(** [int(response.headers.get('Content-Length', 0))] *)
Definition declared_length (r : response) : M Z :=
  match content_length r with
  | None => ret 0
  | Some h =>
      match int h with
      | Some n => ret n
      | None =>
          raise ValueError (invalid_literal h)
      end
  end.

(** The [Content-Length] header of the reply, when there is one, is a text
    on which [int] in [declared_length] is Python's. *)
Definition header_plain (env : download_env) : bool :=
  match http_get env with
  | GetRaises _ => true
  | GetResponse r =>
      match content_length r with
      | None => true
      | Some h => int_plain h
      end
  end.

(** [n / (1024*1024)] for an integer [n >= 0], as a double: the quotient
    rounded to 53 significant bits, ties to even.  The divisor is [2^20], so
    the double is [round53 n / 2^20]. *)
Definition round53 (n : Z) : Z :=
  let bits := Z.log2 n + 1 in
  if bits <=? 53 then n
  else
    let sh := bits - 53 in
    let q := Z.shiftr n sh in
    let r := Z.land n (Z.ones sh) in
    let half := Z.shiftl 1 (sh - 1) in
    let q' := if (half <? r) || ((r =? half) && Z.odd q) then q + 1 else q in
    Z.shiftl q' sh.

Definition two_digits (n : Z) : string :=
  if n <? 10 then "0" +:+ str_of_Z n else str_of_Z n.

(** [f"{x:.2f}"] for the double [m / 2^20], [m >= 0]: hundredths rounded
    from the exact value, ties to even. *)
Definition format_2f (m : Z) : string :=
  let num := m * 100 in
  let q := num / 2 ^ 20 in
  let r := num mod 2 ^ 20 in
  let h := if (2 ^ 19 <? r) || ((r =? 2 ^ 19) && Z.odd q) then q + 1 else q in
  str_of_Z (h / 100) +:+ "." +:+ two_digits (h mod 100).

(** [f"{content_length / (1024*1024):.2f}"].  The true division raises
    [OverflowError] when the quotient does not fit a double, that is when it
    rounds to [2^1024] or more. *)
Definition size_in_mb (n : Z) : M string :=
  let m := round53 (Z.abs n) in
  if 2 ^ 1044 <=? m
  then raise OverflowError "integer division result too large for a float"
  else ret ((if n <? 0 then "-" else "") +:+ format_2f m).

(** [with open(file_path, 'wb') as f: for chunk in ...: if chunk: f.write(chunk)] *)
Definition open_wb (env : download_env) (file_path : string) : M unit :=
  match open_error env with
  | Some msg => raise OSError msg
  | None => modify (set_disk (fun d => <[file_path := []]> d))
  end.

Definition write (file_path : string) (chunk : bytes) : M unit :=
  modify (set_disk (fun d =>
    <[file_path := (match d !! file_path with Some old => old | None => [] end
                    ++ chunk)%list]> d)).

Fixpoint write_chunks (file_path : string) (cs : list bytes) : M unit :=
  match cs with
  | [] => ret tt
  | chunk :: rest =>
      (match chunk with [] => ret tt | _ => write file_path chunk end) ;;;
      write_chunks file_path rest
  end.

(** [self.session.get(url, stream=True, timeout=30)] followed by
    [response.raise_for_status()] *)
Definition get_checked (env : download_env) (url : string) : M response :=
  modify (log (HttpGet url [])) ;;;
  match http_get env with
  | GetRaises msg => raise RequestException msg
  | GetResponse r =>
      match http_error r with
      | Some msg => raise RequestException msg
      | None => ret r
      end
  end.

(** Lines 39-47: the file name, random unless one is given. *)
Definition chosen_filename (env : download_env) (url : string)
    (filename : option string) : string :=
  match filename with
  | Some f =>
      if is_empty f
      then if endswith ".torrent" url
           then "movie_" +:+ random_string env +:+ ".torrent"
           else "file_" +:+ random_string env
      else f
  | None =>
      if endswith ".torrent" url
      then "movie_" +:+ random_string env +:+ ".torrent"
      else "file_" +:+ random_string env
  end.

(** [download_file(url, filename)]: the triple
    [(success, file_path, error_message)]. *)
Definition download_file (env : download_env) (url : string)
    (filename : option string) : M (bool * option string * option string) :=
  if is_empty url then ret (false, None, Some "URL is empty")
  else
    try_except
      (let filename := chosen_filename env url filename in
       let file_path := path_join (DOWNLOAD_DIR env) filename in
       response <- get_checked env url ;;
       content_length <- declared_length response ;;
       if content_length >? MAX_FILE_SIZE then
         mb <- size_in_mb content_length ;;
         ret (false, None, Some ("File too large (" +:+ mb +:+ " MB)"))
       else
         open_wb env file_path ;;;
         write_chunks file_path (chunks response) ;;;
         (match stream_error response with
          | Some msg => raise RequestException msg
          | None => ret tt
          end) ;;;
         ret (true, Some file_path, None))
      (fun e =>
         match class_of e with
         | RequestException =>
             ret (false, None, Some ("Download error: " +:+ str_of e))
         | _ => ret (false, None, Some ("Unexpected error: " +:+ str_of e))
         end).

(** [cleanup_file(file_path)] *)
Definition cleanup_file (file_path : string) : M unit :=
  modify (set_disk (fun d => delete file_path d)).

End FileHandler.

Import FileHandler.

(** ** standalone_bot.py *)

Module Bot.

(** The fields of an incoming text message and of a button press that the
    handlers read. *)
Record message := {
  msg_from_user_id : Z;
  msg_chat_id : Z;
  msg_text : string
}.

Record callback := {
  call_id : string;
  call_data : string;
  call_from_user_id : Z;
  call_chat_id : Z;
  call_message_id : Z
}.

(** The line feed of the message texts. *)
Definition nl : string := String (ascii_of_nat 10) EmptyString.

Definition quality_options : list string := ["720p"; "1080p"; "2160p"].

(** The loop over [quality_options] with its [break]: the first option found
    in the lowered text is taken, and removed from it. *)
Fixpoint scan_quality (options : list string) (message_text : string)
  : option string * string :=
  match options with
  | [] => (None, message_text)
  | quality :: rest =>
      if contains (lower quality) (lower message_text)
      then (Some (lower quality),
            strip (replace (lower quality) "" (lower message_text)))
      else scan_quality rest message_text
  end.

(** No character of [s] is whitespace (true of every quality option). *)
Fixpoint no_space (s : string) : bool :=
  match s with
  | EmptyString => true
  | String c r => negb (isspace c) && no_space r
  end.

(** The first quality option, in the order of [quality_options], that occurs
    in the lowered text. *)
Definition first_quality (text : string) : option string :=
  find (fun quality => contains quality (lower text)) quality_options.

(** Lines 119-132: the quality filter and the query of a message text. *)
Definition parse_query (text : string) : option string * string :=
  let message_text := strip text in
  let '(file_type, message_text) := scan_quality quality_options message_text in
  (file_type, strip message_text).

Definition searching_text (query : string) (file_type : option string) : string :=
  "🔍 Searching for movies with query: '" +:+ query +:+ "'"
  +:+ match file_type with
      | Some ft => if is_empty ft then "" else " (Quality: " +:+ ft +:+ ")"
      | None => ""
      end
  +:+ "..." +:+ nl +:+ "This may take a moment.".

Definition no_results_text (query : string) : string :=
  "❌ No results found for '" +:+ query +:+ "'." +:+ nl +:+ nl
  +:+ "Try a different search term.".

Definition found_text (results : list result) (query : string) : string :=
  "🔍 Found " +:+ str_of_Z (Z.of_nat (length results)) +:+ " results for '"
  +:+ query +:+ "':" +:+ nl +:+ nl.

Definition provide_term_text : string :=
  "Please provide a search term." +:+ nl +:+ "Example: Avengers" +:+ nl
  +:+ "You can also specify quality: 720p Avengers".

Definition search_error_text : string :=
  "❌ Error searching for files." +:+ nl +:+ nl +:+ "Please try again later.".

(** The loop over [enumerate(results)] that fills the inline keyboard.
    [title[:30]] is the first 30 code points of the title. *)
Fixpoint keyboard_from (i : Z) (results : list result) : list button :=
  match results with
  | [] => []
  | result :: rest =>
      let file_type_emoji :=
        if String.eqb (r_type result) "video" then "🎬" else "📁" in
      {| button_text := str_of_Z (i + 1) +:+ ". " +:+ file_type_emoji +:+ " "
                        +:+ slice_chars 30 (r_title result) +:+ " (" +:+ r_size result
                        +:+ ")";
         callback_data := "file_" +:+ str_of_Z i |}
      :: keyboard_from (i + 1) rest
  end.

(** [self.scraper.search_files("yts.mx", query, file_type)] with the request
    it sends; [reply] is what the API answers. *)
Definition scraper_search (reply : api_reply) (query : string)
    (file_type : option string) : M (list result) :=
  modify (log (HttpGet (base_url +:+ "/list_movies.json") (search_params query))) ;;;
  ret (search_files reply "yts.mx" query file_type).

(** [process_message(message)] *)
Definition process_message (reply : api_reply) (message : message) : M unit :=
  try_except
    (if startswith "/" (msg_text message) then ret tt
     else
       let '(file_type, query) := parse_query (msg_text message) in
       if is_empty query then
         call_api (send_message (msg_chat_id message) provide_term_text) ;;;
         ret tt
       else
         progress_message <-
           call_api (send_message (msg_chat_id message)
                       (searching_text query file_type)) ;;
         results <- scraper_search reply query file_type ;;
         match results with
         | [] =>
             call_api (edit_message_text (no_results_text query)
                         (msg_chat_id message) progress_message None) ;;;
             ret tt
         | _ :: _ =>
             let user_id := msg_from_user_id message in
             modify (set_sessions (fun sessions =>
               <[user_id := {| search_results := results;
                               query := query;
                               file_type := file_type |}]> sessions)) ;;;
             call_api (edit_message_text (found_text results query)
                         (msg_chat_id message) progress_message
                         (Some (keyboard_from 0 results))) ;;;
             ret tt
         end)
    (fun e =>
       try_except
         (call_api (send_message (msg_chat_id message) search_error_text) ;;;
          ret tt)
         (fun _ => ret tt)).

(** [l[i]] on a Python list: a negative index counts from the end, an index
    outside [-len(l) .. len(l)-1] raises [IndexError]. *)
Definition getitem {A} (l : list A) (i : Z) : M A :=
  let n := Z.of_nat (length l) in
  let j := if i <? 0 then i + n else i in
  if (j <? 0) || (n <=? j) then raise IndexError "list index out of range"
  else
    match nth_error l (Z.to_nat j) with
    | Some x => ret x
    | None => raise IndexError "list index out of range"
    end.

(** [int(call.data.split("_")[1])] *)
Definition parse_index (data : string) : M Z :=
  piece <- getitem (split "_" data) 1 ;;
  match int piece with
  | Some i => ret i
  | None =>
      raise ValueError (invalid_literal piece)
  end.

Definition expired_text : string := "Search session expired. Please search again.".

Definition invalid_text : string := "Invalid selection. Please search again.".

Definition file_lines (selected_file : result) : string :=
  "Quality: " +:+ r_quality selected_file +:+ nl
  +:+ "Size: " +:+ r_size selected_file.

Definition preparing_text (selected_file : result) : string :=
  "⏳ Preparing torrent file for: " +:+ r_title selected_file +:+ nl
  +:+ file_lines selected_file +:+ nl +:+ nl
  +:+ "Please wait, this may take a moment...".

Definition download_failed_text (error_message : option string) : string :=
  "❌ Failed to download torrent file: "
  +:+ match error_message with Some m => m | None => "None" end
  +:+ nl +:+ nl +:+ "Please try another movie or search again.".

Definition sending_text (selected_file : result) : string :=
  "⏳ Sending torrent file..." +:+ nl
  +:+ "Title: " +:+ r_title selected_file +:+ nl +:+ file_lines selected_file.

Definition caption_text (selected_file : result) : string :=
  "🎬 Movie: " +:+ r_title selected_file +:+ nl
  +:+ "Quality: " +:+ r_quality selected_file +:+ nl +:+ nl
  +:+ "📱 How to watch:" +:+ nl
  +:+ "1. Save this torrent file" +:+ nl
  +:+ "2. Go to webtor.io in your browser" +:+ nl
  +:+ "3. Click 'Open Torrent' and upload this file" +:+ nl
  +:+ "4. Click 'Open' and wait for loading" +:+ nl
  +:+ "5. Enjoy your movie directly in the browser!".

Definition sent_text (selected_file : result) : string :=
  "✅ Torrent file sent!" +:+ nl
  +:+ "Title: " +:+ r_title selected_file +:+ nl +:+ file_lines selected_file.

Definition send_error_text (e : exn) : string :=
  "❌ Error sending torrent file: " +:+ str_of e +:+ nl +:+ nl
  +:+ "Please try another movie.".

Definition selection_error_text : string :=
  "❌ Error processing your selection." +:+ nl +:+ nl
  +:+ "Please try again later.".

Definition edit (call : callback) (text : string) : M unit :=
  call_api (edit_message_text text (call_chat_id call) (call_message_id call) None) ;;;
  ret tt.

(** [if file_path and os.path.exists(file_path)] followed by [open] and
    [send_document], or [raise ValueError("Invalid file path")]. *)
Definition send_file (call : callback) (file_path : option string)
    (caption : string) : M unit :=
  d <- gets disk ;;
  match file_path with
  | Some path =>
      match (if is_empty path then None else d !! path) with
      | Some file =>
          call_api (send_document (call_chat_id call) file caption) ;;; ret tt
      | None => raise ValueError "Invalid file path"
      end
  | None => raise ValueError "Invalid file path"
  end.

(** Lines 239-319 of [_handle_file_selection]: what is done with the
    selected entry. *)
Definition deliver (env : download_env) (call : callback) (selected_file : result)
  : M unit :=
  call_api (answer_callback_query (call_id call) None) ;;;
  edit call (preparing_text selected_file) ;;;
  downloaded <- download_file env (r_url selected_file) None ;;
  let '(torrent_success, file_path, error_message) := downloaded in
  if negb torrent_success then edit call (download_failed_text error_message)
  else
    edit call (sending_text selected_file) ;;;
    try_finally
      (try_except
         (send_file call file_path (caption_text selected_file) ;;;
          edit call (sent_text selected_file))
         (fun e => edit call (send_error_text e)))
      (match file_path with
       | Some path => if is_empty path then ret tt else cleanup_file path
       | None => ret tt
       end).

(** The [try] block of [_handle_file_selection]. *)
Definition select_file (env : download_env) (call : callback) (user_id : Z)
  : M unit :=
  file_index <- parse_index (call_data call) ;;
  sessions <- gets user_sessions ;;
  match sessions !! user_id with
  | None =>
      call_api (answer_callback_query (call_id call) (Some expired_text)) ;;;
      edit call expired_text
  | Some session =>
      let search_results := search_results session in
      if file_index >=? Z.of_nat (length search_results) then
        call_api (answer_callback_query (call_id call) (Some invalid_text)) ;;;
        ret tt
      else
        selected_file <- getitem search_results file_index ;;
        deliver env call selected_file
  end.

(** [_handle_file_selection(call, user_id)] *)
Definition _handle_file_selection (env : download_env) (call : callback)
    (user_id : Z) : M unit :=
  try_except
    (select_file env call user_id)
    (fun e => try_except (edit call selection_error_text) (fun _ => ret tt)).

(** [handle_callback(call)] *)
Definition handle_callback (env : download_env) (call : callback) : M unit :=
  let user_id := call_from_user_id call in
  if startswith "file_" (call_data call)
  then _handle_file_selection env call user_id
  else
    call_api (answer_callback_query (call_id call) (Some "Unknown callback")) ;;;
    ret tt.

(** What holds of every stored entry: its list is one that [search_files]
    can return and line 153 lets through. *)
Definition session_ok (s : session) : Prop :=
  search_results s <> []
  /\ (length (search_results s) <= 10)%nat
  /\ StronglySorted seeds_ge (search_results s).

Definition store_ok (w : world) : Prop :=
  forall user_id s, user_sessions w !! user_id = Some s -> session_ok s.

(** An event other than an answer to a button press that carries a text
    (the session-expired, invalid-selection and unknown-callback notices are
    such answers). *)
Definition plain (e : event) : Prop :=
  forall id text fault, e <> Api (answer_callback_query id (Some text)) fault.

End Bot.

Import Bot.

(** ** Sample data for the worked examples *)

Module Sample.

Definition fresh : world :=
  {| user_sessions := ∅; disk := ∅; trace := []; faults := [];
     next_message_id := 1 |}.

Definition torrent_of (quality : string) (seeds : Z) : torrent :=
  {| t_quality := Some quality; t_size := Some "1.5 GB"; t_seeds := Some seeds;
     t_url := Some "https://yts.mx/torrent/download/ABC.torrent";
     t_hash := Some "ABC" |}.

Definition avengers : movie :=
  {| m_title_long := Some "The Avengers"; m_rating := Some "8"; m_year := Some 2012;
     m_id := Some 10; m_url := None; m_medium_cover_image := None;
     m_torrents := Some [torrent_of "720p" 5; torrent_of "1080p" 9;
                         torrent_of "2160p" 5] |}.

(** A reply with one movie, and a reply that found nothing. *)
Definition one_movie : api_reply :=
  ReplyBody {| status := Some "ok";
               data := Some {| movie_count := Some 1; movies := Some [avengers] |} |}.


Definition text_from (user chat : Z) (text : string) : message :=
  {| msg_from_user_id := user; msg_chat_id := chat; msg_text := text |}.

Definition press (user chat : Z) (data : string) : callback :=
  {| call_id := "cb1"; call_data := data; call_from_user_id := user;
     call_chat_id := chat; call_message_id := 1 |}.

(** The world after user 7 searched for "Avengers 1080P": one stored result. *)
Definition searched : world :=
  snd (process_message one_movie (text_from 7 70 "Avengers 1080P") fresh).

(** The entry stored for user 7 by that search. *)
Definition stored : session :=
  {| search_results := search_files one_movie "yts.mx" "avengers" (Some "1080p");
     query := "avengers";
     file_type := Some "1080p" |}.

(** The one result of that entry. *)
Definition stored_entry : result :=
  {| r_title := "The Avengers (2012) - 1080p [Rating: 8]";
     r_url := "https://yts.mx/torrent/download/ABC.torrent";
     r_size := "1.5 GB"; r_type := "video"; r_seeds := 9;
     r_movie_id := Some 10; r_movie_url := None; r_quality := "1080p";
     r_thumbnail := None; r_hash := "ABC" |}.


(** A details reply for the same movie, with one torrent that has no hash. *)
Definition details : details_reply :=
  DetailsBody (Some "ok")
    (Some {| d_title_long := Some "The Avengers (2012)";
             d_torrents :=
               Some [ torrent_of "720p" 5;
                      {| t_quality := Some "1080p"; t_size := None;
                         t_seeds := None; t_url := None; t_hash := None |};
                      torrent_of "1080p" 9 ] |}).

(** A download answer with the given [Content-Length] header. *)
Definition answer (header : option string) (body : list bytes) : download_env :=
  {| DOWNLOAD_DIR := "/tmp/telegram_downloads";
     random_string := "a1b2c3d4e5";
     http_get := GetResponse {| http_error := None; content_length := header;
                                chunks := body; stream_error := None |};
     open_error := None |}.

(** A declared length of [10^320] bytes. *)
Definition huge_length : string :=
  "1" +:+ "00000000000000000000000000000000000000000000000000000000000000000000000000000000"
      +:+ "00000000000000000000000000000000000000000000000000000000000000000000000000000000"
      +:+ "00000000000000000000000000000000000000000000000000000000000000000000000000000000"
      +:+ "00000000000000000000000000000000000000000000000000000000000000000000000000000000".

End Sample.

(** * Properties *)

(** ** Strings *)

Example lower_ex : lower "720P Avengers" = "720p avengers".
Proof. reflexivity. Qed.

Example strip_ex : strip "  a b  " = "a b".
Proof. reflexivity. Qed.

Example replace_ex :
  replace "aa" "b" "aaa" = "ba" /\ replace "720p" "" "72720p0p" = "720p" /\
  replace "" "-" "ab" = "-a-b-".
Proof. repeat split; reflexivity. Qed.

Example split_ex :
  split "_" "file_1_2" = ["file"; "1"; "2"] /\ split "_" "file_" = ["file"; ""].
Proof. split; reflexivity. Qed.

Example int_ex :
  int "-1" = Some (-1) /\ int " 5 " = Some 5 /\ int "1_0" = Some 10 /\
  int "1__0" = None /\ int "_1" = None /\ int "" = None /\ int "- 1" = None /\
  int "007" = Some 7 /\ int "abc" = None /\ int "+" = None.
Proof. repeat split; reflexivity. Qed.

Example str_of_Z_ex :
  str_of_Z (-5) = "-5" /\ str_of_Z 0 = "0" /\ str_of_Z 2019 = "2019".
Proof. repeat split; reflexivity. Qed.

Example b64_ex :
  b64encode "a" = "YQ==" /\ b64encode "ab" = "YWI=" /\ b64encode "abc" = "YWJj" /\
  b64encode "Avengers (2012)" = "QXZlbmdlcnMgKDIwMTIp".
Proof. repeat split; reflexivity. Qed.

Lemma is_empty_true (s : string) : is_empty s = true <-> s = "".
Proof. destruct s; simpl; split; congruence. Qed.

Lemma is_empty_false (s : string) : is_empty s = false <-> s <> "".
Proof. destruct s; simpl; split; congruence. Qed.

Lemma isspace_lower_char (c : ascii) : isspace (lower_char c) = isspace c.
Proof.
  destruct c as [[] [] [] [] [] [] [] []]; vm_compute; reflexivity.
Qed.

Lemma lower_nil_inv (s : string) : lower s = "" -> s = "".
Proof. destruct s; simpl; congruence. Qed.

Lemma lower_lstrip (s : string) : lower (lstrip s) = lstrip (lower s).
Proof.
  induction s as [|c r IH]; simpl; [reflexivity|].
  rewrite isspace_lower_char. destruct (isspace c); [exact IH | reflexivity].
Qed.

Lemma lower_rstrip (s : string) : lower (rstrip s) = rstrip (lower s).
Proof.
  induction s as [|c r IH]; simpl; [reflexivity|].
  rewrite <- IH, isspace_lower_char.
  destruct (rstrip r) as [|d r'] eqn:E; simpl.
  - destruct (isspace c); reflexivity.
  - reflexivity.
Qed.

Lemma lower_strip (s : string) : lower (strip s) = strip (lower s).
Proof. unfold strip. now rewrite lower_rstrip, lower_lstrip. Qed.

Lemma rstrip_cons_nonspace c r :
  isspace c = false -> rstrip (String c r) = String c (rstrip r).
Proof. intros H. simpl. rewrite H. now destruct (rstrip r). Qed.

Lemma rstrip_cons_space c r :
  isspace c = true ->
  rstrip (String c r) =
  match rstrip r with EmptyString => EmptyString | r' => String c r' end.
Proof. intros H. simpl. rewrite H. reflexivity. Qed.

Lemma lstrip_rstrip (s : string) : lstrip (rstrip s) = rstrip (lstrip s).
Proof.
  induction s as [|c r IH]; [reflexivity|].
  destruct (isspace c) eqn:Hc.
  - rewrite rstrip_cons_space by exact Hc.
    change (lstrip (String c r)) with (if isspace c then lstrip r else String c r).
    rewrite Hc, <- IH.
    destruct (rstrip r) as [|d r']; [reflexivity|].
    change (lstrip (String c (String d r'))) with
      (if isspace c then lstrip (String d r') else String c (String d r')).
    now rewrite Hc.
  - rewrite rstrip_cons_nonspace by exact Hc. simpl. rewrite Hc.
    now rewrite rstrip_cons_nonspace.
Qed.

Lemma lstrip_idem (s : string) : lstrip (lstrip s) = lstrip s.
Proof.
  induction s as [|c r IH]; simpl; [reflexivity|].
  destruct (isspace c) eqn:Hc; [exact IH|]. simpl. now rewrite Hc.
Qed.

Lemma rstrip_idem (s : string) : rstrip (rstrip s) = rstrip s.
Proof.
  induction s as [|c r IH]; [reflexivity|].
  destruct (isspace c) eqn:Hc.
  - rewrite rstrip_cons_space by exact Hc.
    destruct (rstrip r) as [|d r'] eqn:E; [reflexivity|].
    rewrite rstrip_cons_space by exact Hc. now rewrite IH.
  - rewrite !rstrip_cons_nonspace by exact Hc. now rewrite IH.
Qed.

Lemma strip_idem (s : string) : strip (strip s) = strip s.
Proof.
  unfold strip. rewrite lstrip_rstrip, lstrip_idem. apply rstrip_idem.
Qed.

Lemma replace_from_slice (old new : string) (k : nat) (s : string) :
  old <> "" -> replace_from old new k s = replace old new (slice_from k s).
Proof.
  intros Hold. revert k.
  induction s as [|c r IH]; intros k.
  - destruct k; reflexivity.
  - destruct k as [|k]; [reflexivity|]. simpl. apply IH.
Qed.

Lemma replace_nomatch (old new : string) (c : ascii) (r : string) :
  old <> "" -> startswith old (String c r) = false ->
  replace old new (String c r) = String c (replace old new r).
Proof.
  intros Hold H. unfold replace. destruct old as [|a old']; [congruence|].
  cbn [replace_from]. now rewrite H.
Qed.

Lemma replace_match (old new s : string) :
  old <> "" -> startswith old s = true ->
  replace old new s = new +:+ replace old new (slice_from (String.length old) s).
Proof.
  intros Hold H. destruct old as [|a old']; [congruence|].
  destruct s as [|c r]; [discriminate|].
  unfold replace at 1. cbn [replace_from]. rewrite H.
  now rewrite replace_from_slice.
Qed.

(** Removing a token that holds no whitespace commutes with stripping. *)
Section Token.

Variable t : ascii.
Variable T' : string.
Hypothesis t_nonspace : isspace t = false.
Hypothesis T'_nospace : no_space T' = true.

Local Abbreviation T := (String t T').

Lemma token_nonempty : T <> "".
Proof. discriminate. Qed.

Lemma startswith_space c r : isspace c = true -> startswith T (String c r) = false.
Proof.
  intros Hc. simpl. destruct (Ascii.eqb t c) eqn:E; [|reflexivity].
  apply Ascii.eqb_eq in E. congruence.
Qed.

Lemma replace_space c r :
  isspace c = true -> replace T "" (String c r) = String c (replace T "" r).
Proof.
  intros Hc. apply replace_nomatch; [apply token_nonempty | now apply startswith_space].
Qed.

Lemma lstrip_replace (s : string) :
  lstrip (replace T "" (lstrip s)) = lstrip (replace T "" s).
Proof.
  induction s as [|c r IH]; [reflexivity|].
  destruct (isspace c) eqn:Hc.
  - rewrite replace_space by exact Hc. simpl. now rewrite Hc.
  - simpl. now rewrite Hc.
Qed.

Lemma startswith_rstrip (p s : string) :
  no_space p = true -> startswith p (rstrip s) = startswith p s.
Proof.
  revert s. induction p as [|a p IH]; intros s Hp; [reflexivity|].
  simpl in Hp. apply andb_prop in Hp as [Ha Hp]. apply negb_true_iff in Ha.
  destruct s as [|c r]; [reflexivity|].
  destruct (isspace c) eqn:Hc.
  - assert (Hac : Ascii.eqb a c = false).
    { apply Ascii.eqb_neq. congruence. }
    rewrite rstrip_cons_space by exact Hc.
    destruct (rstrip r); simpl; now rewrite ?Hac.
  - rewrite rstrip_cons_nonspace by exact Hc. simpl.
    destruct (Ascii.eqb a c); [now apply IH | reflexivity].
Qed.

Lemma slice_rstrip_match (p s : string) :
  no_space p = true -> startswith p s = true ->
  slice_from (String.length p) (rstrip s) = rstrip (slice_from (String.length p) s).
Proof.
  revert s. induction p as [|a p IH]; intros s Hp Hs; [reflexivity|].
  simpl in Hp. apply andb_prop in Hp as [Ha Hp]. apply negb_true_iff in Ha.
  destruct s as [|c r]; [discriminate|]. simpl in Hs.
  destruct (Ascii.eqb a c) eqn:E; [|discriminate].
  apply Ascii.eqb_eq in E. subst c.
  rewrite rstrip_cons_nonspace by exact Ha. simpl. now apply IH.
Qed.

Lemma token_nospace : no_space T = true.
Proof. simpl. now rewrite t_nonspace, T'_nospace. Qed.

Lemma slice_from_length (n : nat) (s : string) :
  (String.length (slice_from n s) <= String.length s)%nat.
Proof.
  revert s. induction n as [|n IH]; intros s; [simpl; lia|].
  destruct s as [|c r]; simpl; [lia|]. specialize (IH r). lia.
Qed.

Lemma rstrip_replace_upto (n : nat) (s : string) :
  (String.length s <= n)%nat ->
  rstrip (replace T "" (rstrip s)) = rstrip (replace T "" s).
Proof.
  revert s. induction n as [|n IH]; intros s Hn.
  - destruct s; [reflexivity | simpl in Hn; lia].
  - destruct s as [|c r]; [reflexivity|]. simpl in Hn.
    destruct (startswith T (String c r)) eqn:Hm.
    + rewrite (replace_match T "" (String c r)) by (auto using token_nonempty).
      assert (Hm' : startswith T (rstrip (String c r)) = true).
      { rewrite startswith_rstrip; auto using token_nospace. }
      rewrite (replace_match T "" (rstrip (String c r))) by (auto using token_nonempty).
      rewrite slice_rstrip_match by auto using token_nospace.
      cbn [append]. apply IH.
      change (String.length T) with (S (String.length T')).
      cbn [slice_from]. pose proof (slice_from_length (String.length T') r). lia.
    + rewrite (replace_nomatch T "" c r) by (auto using token_nonempty).
      assert (IHr : rstrip (replace T "" (rstrip r)) = rstrip (replace T "" r)).
      { apply IH. lia. }
      destruct (isspace c) eqn:Hc.
      * rewrite (rstrip_cons_space c r) by exact Hc.
        rewrite (rstrip_cons_space c (replace T "" r)) by exact Hc.
        rewrite <- IHr.
        destruct (rstrip r) as [|d r'] eqn:E; [reflexivity|].
        rewrite replace_space by exact Hc.
        now rewrite rstrip_cons_space by exact Hc.
      * rewrite (rstrip_cons_nonspace c r) by exact Hc.
        assert (Hm2 : startswith T (String c (rstrip r)) = false).
        { rewrite <- (rstrip_cons_nonspace c r) by exact Hc.
          rewrite startswith_rstrip; auto using token_nospace. }
        rewrite (replace_nomatch T "" c (rstrip r)) by (auto using token_nonempty).
        rewrite !rstrip_cons_nonspace by exact Hc. now rewrite IHr.
Qed.

Lemma rstrip_replace (s : string) :
  rstrip (replace T "" (rstrip s)) = rstrip (replace T "" s).
Proof. apply (rstrip_replace_upto (String.length s)). lia. Qed.

Lemma strip_replace_strip (s : string) :
  strip (replace T "" (strip s)) = strip (replace T "" s).
Proof.
  unfold strip.
  rewrite <- (lstrip_rstrip (replace T "" (rstrip (lstrip s)))).
  rewrite rstrip_replace, lstrip_rstrip, lstrip_replace. reflexivity.
Qed.

Lemma contains_lstrip (s : string) : contains T (lstrip s) = contains T s.
Proof.
  induction s as [|c r IH]; [reflexivity|].
  destruct (isspace c) eqn:Hc.
  - change (lstrip (String c r)) with (if isspace c then lstrip r else String c r).
    rewrite Hc, IH.
    change (contains T (String c r)) with
      (startswith T (String c r) || contains T r).
    now rewrite startswith_space.
  - simpl. now rewrite Hc.
Qed.

Lemma contains_rstrip (s : string) : contains T (rstrip s) = contains T s.
Proof.
  induction s as [|c r IH]; [reflexivity|].
  change (contains T (String c r)) with
    (startswith T (String c r) || contains T r).
  rewrite <- IH, <- (startswith_rstrip T (String c r)) by apply token_nospace.
  destruct (isspace c) eqn:Hc.
  - rewrite rstrip_cons_space by exact Hc.
    destruct (rstrip r) as [|d r'] eqn:E; reflexivity.
  - rewrite rstrip_cons_nonspace by exact Hc. reflexivity.
Qed.

Lemma contains_strip (s : string) : contains T (strip s) = contains T s.
Proof. unfold strip. now rewrite contains_rstrip, contains_lstrip. Qed.

End Token.

(** ** The query of a free-text message *)

Lemma first_quality_Some (text tok : string) :
  first_quality text = Some tok ->
  In tok quality_options /\ contains tok (lower text) = true.
Proof. intros H. apply find_some in H. exact H. Qed.

Lemma first_quality_None (text tok : string) :
  first_quality text = None -> In tok quality_options ->
  contains tok (lower text) = false.
Proof. intros H Hin. exact (find_none _ _ H tok Hin). Qed.

Lemma option_found (t : ascii) (T' : string) (text : string) :
  isspace t = false -> no_space T' = true ->
  contains (String t T') (lower (strip text)) = contains (String t T') (lower text)
  /\ strip (strip (replace (String t T') "" (lower (strip text))))
     = strip (replace (String t T') "" (lower text)).
Proof.
  intros Ht HT. rewrite lower_strip. split.
  - now apply contains_strip.
  - rewrite strip_idem. now apply strip_replace_strip.
Qed.

Lemma parse_query_spec (text : string) :
  parse_query text =
  match first_quality text with
  | Some tok => (Some tok, strip (replace tok "" (lower text)))
  | None => (None, strip text)
  end.
Proof.
  unfold parse_query, first_quality, quality_options.
  cbn [scan_quality find].
  change (lower "720p") with "720p".
  change (lower "1080p") with "1080p".
  change (lower "2160p") with "2160p".
  destruct (option_found "7" "20p" text eq_refl eq_refl) as [C1 Q1].
  destruct (option_found "1" "080p" text eq_refl eq_refl) as [C2 Q2].
  destruct (option_found "2" "160p" text eq_refl eq_refl) as [C3 Q3].
  rewrite C1, C2, C3.
  destruct (contains "720p" (lower text)); [now rewrite Q1|].
  destruct (contains "1080p" (lower text)); [now rewrite Q2|].
  destruct (contains "2160p" (lower text)); [now rewrite Q3|].
  now rewrite strip_idem.
Qed.






(** ** search_files *)

Lemma insert_by_seeds_perm x l : Permutation (x :: l) (insert_by_seeds x l).
Proof.
  induction l as [|y l IH]; simpl; [reflexivity|].
  destruct (r_seeds x <? r_seeds y); [|reflexivity].
  rewrite perm_swap. now constructor.
Qed.

Lemma sort_by_seeds_perm l : Permutation l (sort_by_seeds l).
Proof.
  induction l as [|x l IH]; simpl; [reflexivity|].
  rewrite <- insert_by_seeds_perm. now constructor.
Qed.

Lemma insert_by_seeds_sorted x l :
  StronglySorted seeds_ge l -> StronglySorted seeds_ge (insert_by_seeds x l).
Proof.
  induction 1 as [|y l Hs IH Hy]; simpl.
  - constructor; constructor.
  - destruct (r_seeds x <? r_seeds y) eqn:E.
    + apply Z.ltb_lt in E. constructor; [exact IH|].
      rewrite <- insert_by_seeds_perm. constructor; [unfold seeds_ge; lia | exact Hy].
    + apply Z.ltb_ge in E. constructor; [now constructor|].
      constructor; [exact E|].
      eapply Forall_impl; [exact Hy|]. unfold seeds_ge. intros; lia.
Qed.

Lemma sort_by_seeds_sorted l : StronglySorted seeds_ge (sort_by_seeds l).
Proof.
  induction l as [|x l IH]; simpl; [constructor|].
  now apply insert_by_seeds_sorted.
Qed.

(** The sort is stable: entries with the same seed count keep their order. *)
Lemma insert_by_seeds_filter (k : Z) x l :
  List.filter (fun r => r_seeds r =? k) (insert_by_seeds x l)
  = List.filter (fun r => r_seeds r =? k) (x :: l).
Proof.
  induction l as [|y l IH]; [reflexivity|].
  cbn [insert_by_seeds]. destruct (r_seeds x <? r_seeds y) eqn:E; [|reflexivity].
  apply Z.ltb_lt in E. cbn [List.filter] in *. rewrite IH.
  destruct (r_seeds x =? k) eqn:Ex; destruct (r_seeds y =? k) eqn:Ey;
    try reflexivity.
  apply Z.eqb_eq in Ex, Ey. lia.
Qed.

Lemma sort_by_seeds_stable (k : Z) l :
  List.filter (fun r => r_seeds r =? k) (sort_by_seeds l)
  = List.filter (fun r => r_seeds r =? k) l.
Proof.
  induction l as [|x l IH]; [reflexivity|].
  cbn [sort_by_seeds fold_right]. fold (sort_by_seeds l).
  rewrite insert_by_seeds_filter. cbn [List.filter]. now rewrite IH.
Qed.

Lemma firstn_incl {A} (x : A) n l : In x (firstn n l) -> In x l.
Proof.
  revert l. induction n as [|n IH]; intros [|y l]; simpl; try tauto.
  intros [->|H]; [now left | right; now apply IH].
Qed.

Lemma firstn_strongly_sorted {A} (R : A -> A -> Prop) n l :
  StronglySorted R l -> StronglySorted R (firstn n l).
Proof.
  intros H. revert n. induction H as [|x l Hs IH Hx]; intros n.
  - rewrite firstn_nil. constructor.
  - destruct n as [|n]; simpl; constructor; [apply IH|].
    apply List.Forall_forall. intros y Hy. apply firstn_incl in Hy.
    revert y Hy. now apply List.Forall_forall.
Qed.

Lemma strongly_sorted_weaken {A} (R S : A -> A -> Prop) l :
  (forall a b, R a b -> S a b) -> StronglySorted R l -> StronglySorted S l.
Proof.
  intros HRS. induction 1 as [|x l Hs IH Hx]; constructor; [exact IH|].
  eapply List.Forall_impl; [|exact Hx]. apply HRS.
Qed.

Lemma search_files_subset reply url q ft r :
  In r (search_files reply url q ft) ->
  exists ms, In r (collect ft ms).
Proof.
  unfold search_files. destruct reply as [|body]; [intros []|].
  destruct (negb _); [intros []|].
  destruct (_ =? 0); [intros []|].
  intros H. apply firstn_incl in H.
  eexists. eapply Permutation_in; [symmetry; apply sort_by_seeds_perm | exact H].
Qed.

Lemma collect_quality ft ms r :
  In r (collect ft ms) -> quality_mismatch ft (r_quality r) = false.
Proof.
  unfold collect. intros H.
  apply in_flat_map in H as [m [_ H]].
  apply in_flat_map in H as [t [_ H]].
  unfold torrent_results in H.
  destruct (quality_mismatch ft _) eqn:E; [destruct H|].
  destruct H as [<-|[]]. exact E.
Qed.

(** C2. Whatever the reply, the query and the filter, the list that
    [search_files] returns is in descending order of seeds and has at most
    ten entries. *)
Theorem search_files_sorted_top10 reply url q ft :
  StronglySorted (fun a b => r_seeds a >= r_seeds b) (search_files reply url q ft)
  /\ (length (search_files reply url q ft) <= 10)%nat.
Proof.
  assert (Hs : StronglySorted seeds_ge (search_files reply url q ft)).
  { unfold search_files. destruct reply as [|body]; [constructor|].
    destruct (negb _); [constructor|].
    destruct (_ =? 0); [constructor|].
    apply firstn_strongly_sorted, sort_by_seeds_sorted. }
  split.
  - eapply strongly_sorted_weaken; [|exact Hs].
    unfold seeds_ge. intros a b; lia.
  - unfold search_files. destruct reply as [|body]; [simpl; lia|].
    destruct (negb _); [simpl; lia|].
    destruct (_ =? 0); [simpl; lia|].
    apply firstn_le_length.
Qed.

(** C3. With a non-empty quality filter, every entry that [search_files]
    returns has the filter as its quality, up to case. *)
Theorem search_files_quality reply url q (ft : string) :
  is_empty ft = false ->
  Forall (fun r => lower (r_quality r) = lower ft)
    (search_files reply url q (Some ft)).
Proof.
  intros Hft. apply List.Forall_forall. intros r Hr.
  apply search_files_subset in Hr as [ms Hr].
  apply collect_quality in Hr. unfold quality_mismatch in Hr.
  rewrite Hft in Hr. simpl in Hr.
  apply negb_false_iff, String.eqb_eq in Hr. now symmetry.
Qed.

Lemma search_files_quality_witness :
  map r_quality (search_files Sample.one_movie "yts.mx" "avengers" (Some "1080P"))
  = ["1080p"]
  /\ Forall (fun r => lower (r_quality r) = lower "1080P")
       (search_files Sample.one_movie "yts.mx" "avengers" (Some "1080P")).
Proof.
  split; [reflexivity|].
  apply (search_files_quality Sample.one_movie "yts.mx" "avengers" "1080P").
  reflexivity.
Defined.

Example search_files_order :
  map (fun r => (r_quality r, r_seeds r))
    (search_files Sample.one_movie "yts.mx" "avengers" None)
  = [("1080p", 9); ("720p", 5); ("2160p", 5)].
Proof. reflexivity. Qed.

(** ** get_magnet_link *)

Lemma startswith_append (p s : string) : startswith p (p +:+ s) = true.
Proof.
  induction p as [|a p IH]; [reflexivity|]. simpl. now rewrite Ascii.eqb_refl.
Qed.

(** C6. For every title, the magnet link of the empty hash is the empty
    string, and the magnet link of a non-empty hash starts with
    [magnet:?xt=urn:btih:]. *)
Theorem get_magnet_link_prefix (title : string) :
  get_magnet_link "" title = ""
  /\ forall torrent_hash,
       torrent_hash <> "" ->
       startswith "magnet:?xt=urn:btih:" (get_magnet_link torrent_hash title) = true.
Proof.
  split; [reflexivity|].
  intros h Hh. apply is_empty_false in Hh.
  unfold get_magnet_link. rewrite Hh. apply startswith_append.
Qed.

Lemma get_magnet_link_prefix_witness :
  "ABC" <> ""
  /\ get_magnet_link "" "The Avengers" = ""
  /\ startswith "magnet:?xt=urn:btih:" (get_magnet_link "ABC" "The Avengers") = true
  /\ slice_to 44 (get_magnet_link "ABC" "The Avengers")
     = "magnet:?xt=urn:btih:ABC&dn=VGhlIEF2ZW5nZXJz&".
Proof.
  split; [discriminate|]. split; [|split].
  - apply (proj1 (get_magnet_link_prefix "The Avengers")).
  - apply (proj2 (get_magnet_link_prefix "The Avengers") "ABC"). discriminate.
  - reflexivity.
Defined.

(** ** download_file *)

Lemma write_known (file_path : string) (chunk : bytes) (w : world) (old : bytes) :
  disk w !! file_path = Some old ->
  write file_path chunk w
  = (Ret tt, set_disk (fun d => <[file_path := (old ++ chunk)%list]> d) w).
Proof.
  intros H. unfold write, modify, set_disk. cbn beta. now rewrite H.
Qed.

Lemma write_chunks_disk (file_path : string) (cs : list bytes) (w : world)
    (old : bytes) :
  disk w !! file_path = Some old ->
  exists w',
    write_chunks file_path cs w = (Ret tt, w')
    /\ disk w' !! file_path = Some (old ++ concat cs)%list
    /\ user_sessions w' = user_sessions w
    /\ trace w' = trace w.
Proof.
  revert w old. induction cs as [|chunk rest IH]; intros w old Hold.
  - exists w. simpl. rewrite app_nil_r. auto.
  - destruct chunk as [|b chunk].
    + destruct (IH w old Hold) as (w' & Hrun & Hd & Hs & Ht).
      exists w'. cbn [write_chunks]. unfold bind at 1, ret at 1.
      rewrite Hrun. simpl. auto.
    + set (w1 := set_disk (fun d => <[file_path := (old ++ b :: chunk)%list]> d) w).
      destruct (IH w1 (old ++ b :: chunk)%list) as (w' & Hrun & Hd & Hs & Ht).
      { unfold w1. simpl. apply lookup_insert_eq. }
      exists w'. cbn [write_chunks]. unfold bind at 1.
      rewrite (write_known _ _ _ _ Hold). fold w1. rewrite Hrun.
      cbn [concat]. rewrite Hd, app_assoc. auto.
Qed.

Lemma declared_length_absent r w :
  content_length r = None -> declared_length r w = (Ret 0, w).
Proof. intros H. unfold declared_length. now rewrite H. Qed.

Lemma declared_length_int r h n w :
  content_length r = Some h -> int h = Some n ->
  declared_length r w = (Ret n, w).
Proof. intros H Hn. unfold declared_length. now rewrite H, Hn. Qed.

(** The three ways a download goes on once the response stands and its
    declared length [n] is known. *)
Section Download.

Variables (env : download_env) (url : string) (filename : option string).
Variables (r : response) (n : Z).
Hypothesis url_given : is_empty url = false.
Hypothesis got : http_get env = GetResponse r.
Hypothesis status_ok : http_error r = None.
Hypothesis declared : forall w, declared_length r w = (Ret n, w).

Local Abbreviation file_path :=
  (path_join (DOWNLOAD_DIR env) (chosen_filename env url filename)).

Lemma download_rejected w :
  n > MAX_FILE_SIZE ->
  download_file env url filename w =
  ( Ret (false, None,
         Some (if 2 ^ 1044 <=? round53 (Z.abs n)
               then "Unexpected error: integer division result too large for a float"
               else "File too large (" +:+ format_2f (round53 (Z.abs n)) +:+ " MB)")),
    log (HttpGet url []) w ).
Proof.
  intros Hn. apply Z.gt_lt, Z.gtb_lt in Hn.
  unfold download_file. rewrite url_given.
  cbv [try_except bind get_checked modify]. rewrite got, status_ok.
  cbv [ret]. rewrite declared, Hn.
  unfold size_in_mb.
  assert (Hpos : (n <? 0) = false).
  { apply Z.ltb_ge. apply Z.gtb_lt in Hn. unfold MAX_FILE_SIZE in Hn. lia. }
  rewrite Hpos.
  destruct (2 ^ 1044 <=? round53 (Z.abs n)); reflexivity.
Qed.

Lemma download_open_fails w msg :
  n <= MAX_FILE_SIZE ->
  open_error env = Some msg ->
  download_file env url filename w =
  (Ret (false, None, Some ("Unexpected error: " +:+ msg)), log (HttpGet url []) w).
Proof.
  intros Hn Hopen.
  assert (Hgt : (n >? MAX_FILE_SIZE) = false)
    by (rewrite Z.gtb_ltb; apply Z.ltb_ge; lia).
  unfold download_file. rewrite url_given.
  cbv [try_except bind get_checked modify]. rewrite got, status_ok.
  cbv [ret]. rewrite declared, Hgt.
  unfold open_wb. rewrite Hopen. reflexivity.
Qed.

Lemma download_accepted w :
  n <= MAX_FILE_SIZE ->
  open_error env = None ->
  exists w',
    download_file env url filename w =
    ( match stream_error r with
      | None => Ret (true, Some file_path, None)
      | Some msg => Ret (false, None, Some ("Download error: " +:+ msg))
      end, w' )
    /\ disk w' !! file_path = Some (concat (chunks r))
    /\ user_sessions w' = user_sessions w
    /\ trace w' = (trace w ++ [HttpGet url []])%list.
Proof.
  intros Hn Hopen.
  assert (Hgt : (n >? MAX_FILE_SIZE) = false)
    by (rewrite Z.gtb_ltb; apply Z.ltb_ge; lia).
  set (w1 := set_disk (fun d => <[file_path := []]> d) (log (HttpGet url []) w)).
  destruct (write_chunks_disk file_path (chunks r) w1 [])
    as (w' & Hrun & Hd & Hs & Ht).
  { unfold w1. simpl. apply lookup_insert_eq. }
  exists w'. split; [|auto].
  unfold download_file. rewrite url_given. fold file_path.
  cbv [try_except bind get_checked modify]. rewrite got, status_ok.
  cbv [ret]. rewrite declared, Hgt.
  unfold open_wb. rewrite Hopen. cbv [modify]. fold w1. rewrite Hrun.
  destruct (stream_error r); reflexivity.
Qed.

End Download.

(** C10. When the response carries no [Content-Length] header the declared
    length is 0: the size check lets the download through whatever the size
    of the body, the message is never the size error, and once the file is
    open every chunk that arrives is written to it. *)
Theorem download_without_content_length env url filename r w :
  is_empty url = false ->
  http_get env = GetResponse r ->
  http_error r = None ->
  content_length r = None ->
  let file_path := path_join (DOWNLOAD_DIR env) (chosen_filename env url filename) in
  let run := download_file env url filename w in
  declared_length r w = (Ret 0, w)
  /\ (forall mb, fst run <> Ret (false, None, Some ("File too large (" +:+ mb +:+ " MB)")))
  /\ (open_error env = None ->
      disk (snd run) !! file_path = Some (concat (chunks r)))
  /\ (open_error env = None -> stream_error r = None ->
      fst run = Ret (true, Some file_path, None)).
Proof.
  intros Hurl Hget Herr Hlen file_path run.
  assert (Hdecl : forall w, declared_length r w = (Ret 0, w)).
  { intros w0. now apply declared_length_absent. }
  assert (Hle : 0 <= MAX_FILE_SIZE) by (unfold MAX_FILE_SIZE; lia).
  split; [apply Hdecl|].
  destruct (open_error env) as [msg|] eqn:Hopen.
  - unfold run.
    rewrite (download_open_fails env url filename r 0 Hurl Hget Herr Hdecl w msg Hle Hopen).
    repeat split; try discriminate.
  - destruct (download_accepted env url filename r 0 Hurl Hget Herr Hdecl w Hle Hopen)
      as (w' & Hrun & Hd & _ & _).
    unfold run. rewrite Hrun. cbn [fst snd].
    split; [|split].
    + intros mb. destruct (stream_error r); discriminate.
    + intros _. exact Hd.
    + intros _ Hstream. now rewrite Hstream.
Qed.

Lemma download_without_content_length_witness :
  let env := Sample.answer None [[Byte.x64; Byte.x38]; []; [Byte.x3a]] in
  let url := "https://yts.mx/torrent/download/ABC.torrent" in
  let run := download_file env url None Sample.fresh in
  fst run = Ret (true, Some "/tmp/telegram_downloads/movie_a1b2c3d4e5.torrent", None)
  /\ disk (snd run) !! "/tmp/telegram_downloads/movie_a1b2c3d4e5.torrent"
     = Some [Byte.x64; Byte.x38; Byte.x3a].
Proof.
  intros env url run.
  destruct (download_without_content_length env url None
              {| http_error := None; content_length := None;
                 chunks := [[Byte.x64; Byte.x38]; []; [Byte.x3a]];
                 stream_error := None |}
              Sample.fresh eq_refl eq_refl eq_refl eq_refl)
    as (_ & _ & Hdisk & Hret).
  split; [exact (Hret eq_refl eq_refl) | exact (Hdisk eq_refl)].
Defined.

(** A declared length above the ceiling never yields a file: the download
    fails, without a path, and the disk is as it was. *)
Lemma download_oversize_fails env url filename r h n w :
  is_empty url = false ->
  http_get env = GetResponse r ->
  http_error r = None ->
  content_length r = Some h ->
  int h = Some n ->
  n > MAX_FILE_SIZE ->
  exists msg,
    download_file env url filename w
    = (Ret (false, None, Some msg), log (HttpGet url []) w)
    /\ (round53 n < 2 ^ 1044 ->
        msg = "File too large (" +:+ format_2f (round53 n) +:+ " MB)").
Proof.
  intros Hurl Hget Herr Hh Hint Hn.
  assert (Hdecl : forall w, declared_length r w = (Ret n, w)).
  { intros w0. eapply declared_length_int; eauto. }
  eexists. split.
  - apply (download_rejected env url filename r n Hurl Hget Herr Hdecl w Hn).
  - intros Hfit. rewrite Z.abs_eq by (unfold MAX_FILE_SIZE in Hn; lia).
    destruct (2 ^ 1044 <=? round53 n) eqn:E; [|reflexivity].
    apply Z.leb_le in E. lia.
Qed.

Example download_60MB :
  download_file (Sample.answer (Some "60000000") [[Byte.x64]])
    "https://yts.mx/torrent/download/ABC.torrent" None Sample.fresh
  = (Ret (false, None, Some "File too large (57.22 MB)"),
     log (HttpGet "https://yts.mx/torrent/download/ABC.torrent" []) Sample.fresh).
Proof. vm_compute. reflexivity. Qed.

(** C4, at a declared length of [10^320] bytes.  The length is above 50 MB
    and the download fails without a path and without touching the disk,
    but the message is not the size error: formatting the size in MB
    overflows and the [except Exception] clause words the message. *)
Theorem download_huge_length_message :
  int Sample.huge_length = Some (10 ^ 320)
  /\ 10 ^ 320 > MAX_FILE_SIZE
  /\ download_file (Sample.answer (Some Sample.huge_length) [[Byte.x64]])
       "https://yts.mx/torrent/download/ABC.torrent" None Sample.fresh
     = (Ret (false, None,
             Some "Unexpected error: integer division result too large for a float"),
        log (HttpGet "https://yts.mx/torrent/download/ABC.torrent" []) Sample.fresh).
Proof.
  split; [vm_compute; reflexivity|]. split; [reflexivity|].
  vm_compute. reflexivity.
Qed.

(** ** Button presses *)

(** C5. A press whose index is at least the number of stored results is
    answered with the invalid-selection notice and nothing else happens: no
    exception leaves the handler, no request is sent, the disk and the
    sessions stay as they were.  (If the answer itself meets an API fault,
    the handler's [except] clause edits the message to the generic error.) *)
Theorem invalid_selection env call user_id w session file_index :
  user_sessions w !! user_id = Some session ->
  parse_index (call_data call) w = (Ret file_index, w) ->
  file_index >= Z.of_nat (length (search_results session)) ->
  let run := _handle_file_selection env call user_id w in
  let fault := hd None (faults w) in
  fst run = Ret tt
  /\ trace (snd run) =
     (trace w ++
      Api (answer_callback_query (call_id call) (Some invalid_text)) fault
      :: match fault with
         | None => []
         | Some _ =>
             [Api (edit_message_text selection_error_text (call_chat_id call)
                     (call_message_id call) None) (hd None (tl (faults w)))]
         end)%list
  /\ user_sessions (snd run) = user_sessions w
  /\ disk (snd run) = disk w.
Proof.
  intros Hsession Hparse Hge run fault. subst run fault.
  apply Z.ge_le, Z.geb_le in Hge.
  unfold _handle_file_selection, select_file.
  cbv [try_except bind gets]. rewrite Hparse, Hsession, Hge.
  unfold call_api, edit, bind, call_api.
  destruct (faults w) as [|[msg|] fs] eqn:Hf; cbn; rewrite ?Hf; cbn.
  - rewrite <- ?app_assoc. auto.
  - destruct fs as [|[msg2|] fs]; cbn; rewrite <- ?app_assoc; auto.
  - rewrite <- ?app_assoc. auto.
Qed.

Lemma invalid_selection_witness :
  let env := Sample.answer None [[Byte.x64]] in
  let run := _handle_file_selection env (Sample.press 7 70 "file_3") 7 Sample.searched in
  length (search_results Sample.stored) = 1%nat
  /\ fst run = Ret tt
  /\ trace (snd run) =
     (trace Sample.searched ++
      [Api (answer_callback_query "cb1" (Some "Invalid selection. Please search again."))
         None])%list
  /\ user_sessions (snd run) = user_sessions Sample.searched
  /\ disk (snd run) = disk Sample.searched.
Proof.
  intros env run. split; [reflexivity|].
  assert (Hsession : user_sessions Sample.searched !! 7 = Some Sample.stored)
    by (vm_compute; reflexivity).
  assert (Hparse : parse_index (call_data (Sample.press 7 70 "file_3")) Sample.searched
                   = (Ret 3, Sample.searched)) by reflexivity.
  assert (Hge : 3 >= Z.of_nat (length (search_results Sample.stored)))
    by (simpl; lia).
  exact (invalid_selection env (Sample.press 7 70 "file_3") 7 Sample.searched
           Sample.stored 3 Hsession Hparse Hge).
Defined.




(** What a computation adds to the trace. *)
Section Emits.

Variable P : event -> Prop.

Lemma emits_ret {A} (a : A) : emits P (ret a).
Proof. intros w. exists []. cbn. now rewrite app_nil_r. Qed.

Lemma emits_raise {A} c msg : emits P (@raise A c msg).
Proof. intros w. exists []. cbn. now rewrite app_nil_r. Qed.

Lemma emits_gets {A} (f : world -> A) : emits P (gets f).
Proof. intros w. exists []. cbn. now rewrite app_nil_r. Qed.

Lemma emits_modify (f : world -> world) :
  (forall w, trace (f w) = trace w) -> emits P (modify f).
Proof. intros Hf w. exists []. cbn. now rewrite Hf, app_nil_r. Qed.

Lemma emits_log (e : event) : P e -> emits P (modify (log e)).
Proof. intros He w. exists [e]. cbn. split; [reflexivity | now constructor]. Qed.

Lemma emits_call_api (c : api_call) :
  (forall fault, P (Api c fault)) -> emits P (call_api c).
Proof.
  intros Hc w. unfold call_api.
  exists [Api c (match faults w with f :: _ => f | [] => None end)].
  split; [|now constructor].
  destruct (faults w) as [|[msg|] fs]; destruct c; reflexivity.
Qed.

Lemma emits_bind {A B} (m : M A) (k : A -> M B) :
  emits P m -> (forall a, emits P (k a)) -> emits P (bind m k).
Proof.
  intros Hm Hk w. unfold bind.
  destruct (Hm w) as (evs & Ht & Hp).
  destruct (m w) as [[a|e] w1]; cbn in Ht |- *.
  - destruct (Hk a w1) as (evs' & Ht' & Hp').
    exists (evs ++ evs')%list. rewrite Ht', Ht, app_assoc.
    split; [reflexivity | now apply Forall_app].
  - now exists evs.
Qed.

Lemma emits_try_except {A} (m : M A) (h : exn -> M A) :
  emits P m -> (forall e, emits P (h e)) -> emits P (try_except m h).
Proof.
  intros Hm Hh w. unfold try_except.
  destruct (Hm w) as (evs & Ht & Hp).
  destruct (m w) as [[a|e] w1]; cbn in Ht |- *.
  - now exists evs.
  - destruct (Hh e w1) as (evs' & Ht' & Hp').
    exists (evs ++ evs')%list. rewrite Ht', Ht, app_assoc.
    split; [reflexivity | now apply Forall_app].
Qed.

Lemma emits_try_finally {A} (m : M A) (f : M unit) :
  emits P m -> emits P f -> emits P (try_finally m f).
Proof.
  intros Hm Hf w. unfold try_finally.
  destruct (Hm w) as (evs & Ht & Hp).
  destruct (m w) as [r w1]; cbn in Ht.
  destruct (Hf w1) as (evs' & Ht' & Hp').
  exists (evs ++ evs')%list.
  split; [|now apply Forall_app].
  destruct (f w1) as [[u|e] w2]; cbn in Ht' |- *; now rewrite Ht', Ht, app_assoc.
Qed.

Lemma emits_write_chunks file_path cs : emits P (write_chunks file_path cs).
Proof.
  induction cs as [|chunk rest IH]; [apply emits_ret|].
  cbn [write_chunks]. apply emits_bind; [|intros _; exact IH].
  destruct chunk; [apply emits_ret|]. now apply emits_modify.
Qed.

Hypothesis P_get : forall url params, P (HttpGet url params).

Lemma emits_download_file env url filename :
  emits P (download_file env url filename).
Proof.
  unfold download_file. destruct (is_empty url); [apply emits_ret|].
  apply emits_try_except.
  - apply emits_bind.
    + unfold get_checked. apply emits_bind; [now apply emits_log|]. intros _.
      destruct (http_get env) as [msg|r]; [apply emits_raise|].
      destruct (http_error r); [apply emits_raise | apply emits_ret].
    + intros r. apply emits_bind.
      * unfold declared_length. destruct (content_length r) as [h|]; [|apply emits_ret].
        destruct (int h); [apply emits_ret | apply emits_raise].
      * intros n. destruct (n >? MAX_FILE_SIZE).
        -- apply emits_bind; [|intros mb; apply emits_ret].
           unfold size_in_mb. destruct (_ <=? _); [apply emits_raise | apply emits_ret].
        -- apply emits_bind.
           { unfold open_wb. destruct (open_error env); [apply emits_raise|].
             now apply emits_modify. }
           intros _. apply emits_bind; [apply emits_write_chunks|].
           intros _. apply emits_bind; [|intros _; apply emits_ret].
           destruct (stream_error r); [apply emits_raise | apply emits_ret].
  - intros e. destruct (class_of e); apply emits_ret.
Qed.

End Emits.

Lemma emits_edit call text : emits plain (edit call text).
Proof.
  unfold edit. apply emits_bind; [|intros _; apply emits_ret].
  apply emits_call_api. intros fault id t f. discriminate.
Qed.

Lemma emits_deliver env call selected_file :
  emits plain (deliver env call selected_file).
Proof.
  unfold deliver. apply emits_bind.
  { apply emits_call_api. intros fault id t f. discriminate. }
  intros _. apply emits_bind; [apply emits_edit|]. intros _.
  apply emits_bind.
  { apply emits_download_file. intros url params id t f. discriminate. }
  intros [[ok file_path] error_message].
  destruct (negb ok); [apply emits_edit|].
  apply emits_bind; [apply emits_edit|]. intros _.
  apply emits_try_finally.
  - apply emits_try_except; [|intros e; apply emits_edit].
    apply emits_bind; [|intros _; apply emits_edit].
    unfold send_file. apply emits_bind; [apply emits_gets|]. intros d.
    destruct file_path as [path|]; [|apply emits_raise].
    destruct (if is_empty path then None else d !! path); [|apply emits_raise].
    apply emits_bind; [|intros _; apply emits_ret].
    apply emits_call_api. intros fault id t f. discriminate.
  - destruct file_path as [path|]; [|apply emits_ret].
    destruct (is_empty path); [apply emits_ret|].
    unfold cleanup_file. now apply emits_modify.
Qed.

Lemma emits_on_error call :
  emits plain (try_except (edit call selection_error_text) (fun _ => ret tt)).
Proof.
  apply emits_try_except; [apply emits_edit | intros _; apply emits_ret].
Qed.

Lemma getitem_negative {A} (l : list A) (i : Z) (w : world) :
  i < 0 -> - Z.of_nat (length l) <= i ->
  exists x,
    nth_error l (Z.to_nat (Z.of_nat (length l) + i)) = Some x
    /\ getitem l i w = (Ret x, w).
Proof.
  intros Hneg Hlow. unfold getitem.
  apply Z.ltb_lt in Hneg. rewrite Hneg. apply Z.ltb_lt in Hneg.
  rewrite (Z.add_comm i).
  set (j := Z.of_nat (length l) + i).
  assert (Hj : (j <? 0) || (Z.of_nat (length l) <=? j) = false).
  { apply orb_false_iff. split; [apply Z.ltb_ge | apply Z.leb_gt]; lia. }
  rewrite Hj.
  destruct (nth_error l (Z.to_nat j)) as [x|] eqn:E.
  - exists x. auto.
  - apply nth_error_None in E. lia.
Qed.

Lemma getitem_below {A} (l : list A) (i : Z) (w : world) :
  i < - Z.of_nat (length l) ->
  getitem l i w = (Raise (Exn IndexError "list index out of range"), w).
Proof.
  intros Hlow. unfold getitem.
  assert (Hneg : (i <? 0) = true) by (apply Z.ltb_lt; lia).
  rewrite Hneg.
  assert (Hj : (i + Z.of_nat (length l) <? 0) = true) by (apply Z.ltb_lt; lia).
  rewrite Hj. reflexivity.
Qed.

(** C8, as stated, fails for an index below minus the number of stored
    results: the bounds check passes, but no result is selected; the lookup
    raises [IndexError] and the reply is the generic error edit. *)
Lemma negative_selection_counterexample :
  let env := Sample.answer None [[Byte.x64]] in
  let call := Sample.press 7 70 "file_-5" in
  let run := _handle_file_selection env call 7 Sample.searched in
  parse_index (call_data call) Sample.searched = (Ret (-5), Sample.searched)
  /\ user_sessions Sample.searched !! 7 = Some Sample.stored
  /\ length (search_results Sample.stored) = 1%nat
  /\ select_file env call 7 Sample.searched
     = (Raise (Exn IndexError "list index out of range"), Sample.searched)
  /\ trace (snd run) =
     (trace Sample.searched
      ++ [Api (edit_message_text selection_error_text 70 1 None) None])%list
  /\ forall fault,
       ~ In (Api (answer_callback_query "cb1" None) fault) (trace (snd run)).
Proof.
  intros env call run.
  split; [reflexivity|]. split; [vm_compute; reflexivity|].
  split; [reflexivity|]. split; [vm_compute; reflexivity|].
  split; [vm_compute; reflexivity|].
  intros fault H. vm_compute in H.
  repeat (destruct H as [H|H]; [discriminate H|]). exact H.
Qed.

(** C8, amended.  A press with a negative index passes the bounds check, so
    it never gets the invalid-selection notice.  From [-len] up to [-1] the
    handler goes on with the entry counted from the end of the stored list;
    below [-len] the lookup raises [IndexError] and the handler's [except]
    clause replies with the generic error edit. *)
Theorem negative_selection env call user_id w session file_index :
  user_sessions w !! user_id = Some session ->
  parse_index (call_data call) w = (Ret file_index, w) ->
  file_index < 0 ->
  let results := search_results session in
  let len := Z.of_nat (length results) in
  let on_error := fun _ : exn =>
    try_except (edit call selection_error_text) (fun _ => ret tt) in
  (- len <= file_index ->
   exists selected_file,
     nth_error results (Z.to_nat (len + file_index)) = Some selected_file
     /\ _handle_file_selection env call user_id w
        = try_except (deliver env call selected_file) on_error w)
  /\ (file_index < - len ->
      select_file env call user_id w
      = (Raise (Exn IndexError "list index out of range"), w)
      /\ _handle_file_selection env call user_id w
         = on_error (Exn IndexError "list index out of range") w)
  /\ exists evs,
       trace (snd (_handle_file_selection env call user_id w))
       = (trace w ++ evs)%list
       /\ Forall plain evs.
Proof.
  intros Hsession Hparse Hneg results len on_error.
  assert (Hcheck : (file_index >=? len) = false).
  { rewrite Z.geb_leb. apply Z.leb_gt. unfold len. lia. }
  assert (Hselect : select_file env call user_id w
                    = bind (getitem results file_index) (deliver env call) w).
  { unfold select_file. cbv [bind gets]. rewrite Hparse, Hsession.
    fold results. fold len. rewrite Hcheck. reflexivity. }
  assert (Hin : - len <= file_index ->
          exists selected_file,
            nth_error results (Z.to_nat (len + file_index)) = Some selected_file
            /\ _handle_file_selection env call user_id w
               = try_except (deliver env call selected_file) on_error w).
  { intros Hlow.
    destruct (getitem_negative results file_index w Hneg Hlow) as (x & Hx & Hget).
    exists x. split; [exact Hx|].
    unfold _handle_file_selection, try_except. rewrite Hselect.
    unfold bind. rewrite Hget. reflexivity. }
  assert (Hout : file_index < - len ->
          select_file env call user_id w
          = (Raise (Exn IndexError "list index out of range"), w)
          /\ _handle_file_selection env call user_id w
             = on_error (Exn IndexError "list index out of range") w).
  { intros Hlow.
    pose proof (getitem_below results file_index w Hlow) as Hget.
    assert (Hraise : select_file env call user_id w
                     = (Raise (Exn IndexError "list index out of range"), w)).
    { rewrite Hselect. unfold bind. now rewrite Hget. }
    split; [exact Hraise|].
    unfold _handle_file_selection, try_except at 1. now rewrite Hraise. }
  split; [exact Hin|]. split; [exact Hout|].
  destruct (Z_le_gt_dec (- len) file_index) as [Hlow|Hlow].
  - destruct (Hin Hlow) as (x & _ & ->).
    apply emits_try_except; [apply emits_deliver|].
    intros e. unfold on_error. apply emits_on_error.
  - destruct (Hout ltac:(lia)) as [_ ->].
    unfold on_error. apply emits_on_error.
Qed.

Lemma negative_selection_witness :
  let env := Sample.answer None [[Byte.x64]] in
  let call := Sample.press 7 70 "file_-1" in
  let run := _handle_file_selection env call 7 Sample.searched in
  exists selected_file,
    nth_error (search_results Sample.stored) 0 = Some selected_file
    /\ run = try_except (deliver env call selected_file)
               (fun _ => try_except (edit call selection_error_text)
                           (fun _ => ret tt))
               Sample.searched
    /\ skipn 3 (trace (snd run)) =
       [ Api (answer_callback_query "cb1" None) None;
         Api (edit_message_text (preparing_text selected_file) 70 1 None) None;
         HttpGet (r_url selected_file) [];
         Api (edit_message_text (sending_text selected_file) 70 1 None) None;
         Api (send_document 70 [Byte.x64] (caption_text selected_file)) None;
         Api (edit_message_text (sent_text selected_file) 70 1 None) None ].
Proof.
  intros env call run.
  assert (Hsession : user_sessions Sample.searched !! 7 = Some Sample.stored)
    by (vm_compute; reflexivity).
  assert (Hparse : parse_index (call_data call) Sample.searched
                   = (Ret (-1), Sample.searched)) by reflexivity.
  assert (Hneg : -1 < 0) by lia.
  assert (Hlow : - Z.of_nat (length (search_results Sample.stored)) <= -1)
    by (simpl; lia).
  destruct (proj1 (negative_selection env call 7 Sample.searched Sample.stored (-1)
                     Hsession Hparse Hneg) Hlow)
    as (selected_file & Hnth & Hrun).
  exists selected_file. split; [exact Hnth|]. split; [exact Hrun|].
  assert (Hsel : selected_file
                 = hd selected_file (search_results Sample.stored)).
  { vm_compute in Hnth. injection Hnth as <-. reflexivity. }
  rewrite Hsel. vm_compute. reflexivity.
Defined.

(** ** The session store *)





(** * Further properties *)

(** ** search_files: what is kept, what is dropped *)

Lemma strongly_sorted_split {A} (R : A -> A -> Prop) (n : nat) (l : list A) :
  StronglySorted R l ->
  forall a b, In a (firstn n l) -> In b (skipn n l) -> R a b.
Proof.
  intros H. revert n. induction H as [|x l Hs IH Hx]; intros n a b Ha Hb.
  - rewrite firstn_nil in Ha. destruct Ha.
  - destruct n as [|n]; [destruct Ha|]. cbn in Ha, Hb.
    destruct Ha as [<-|Ha].
    + apply (proj1 (List.Forall_forall _ _) Hx).
      rewrite <- (firstn_skipn n l). apply in_or_app. now right.
    + now apply (IH n).
Qed.

Lemma search_files_ok (c : Z) (ms : list movie) (url q : string)
    (ft : option string) :
  c <> 0 ->
  search_files
    (ReplyBody {| status := Some "ok";
                  data := Some {| movie_count := Some c; movies := Some ms |} |})
    url q ft
  = firstn 10 (sort_by_seeds (collect ft ms)).
Proof.
  intros Hc. unfold search_files. cbn.
  destruct (c =? 0) eqn:E; [apply Z.eqb_eq in E; congruence | reflexivity].
Qed.

(** X1. On a successful reply, the list returned and the entries left out
    make up, together, the entries of all matching torrents; no entry left
    out has more seeds than an entry returned; and nothing is left out when
    there are at most ten. *)
Theorem search_files_keeps_best (c : Z) (ms : list movie) (url q : string)
    (ft : option string) :
  c <> 0 ->
  let reply :=
    ReplyBody {| status := Some "ok";
                 data := Some {| movie_count := Some c; movies := Some ms |} |} in
  exists dropped,
    Permutation (collect ft ms) (search_files reply url q ft ++ dropped)
    /\ (forall a b, In a (search_files reply url q ft) -> In b dropped ->
                    r_seeds b <= r_seeds a)
    /\ ((length (collect ft ms) <= 10)%nat -> dropped = []).
Proof.
  intros Hc reply. unfold reply. rewrite search_files_ok by exact Hc.
  exists (skipn 10 (sort_by_seeds (collect ft ms))). split; [|split].
  - rewrite firstn_skipn. apply sort_by_seeds_perm.
  - intros a b Ha Hb.
    exact (strongly_sorted_split seeds_ge 10 _ (sort_by_seeds_sorted _) a b Ha Hb).
  - intros Hlen. apply skipn_all2.
    rewrite <- (Permutation_length (sort_by_seeds_perm (collect ft ms))). exact Hlen.
Qed.

Lemma search_files_keeps_best_witness :
  exists dropped,
    Permutation (collect None [Sample.avengers])
      (search_files Sample.one_movie "yts.mx" "avengers" None ++ dropped)
    /\ dropped = []
    /\ length (search_files Sample.one_movie "yts.mx" "avengers" None) = 3%nat.
Proof.
  destruct (search_files_keeps_best 1 [Sample.avengers] "yts.mx" "avengers" None)
    as (dropped & Hperm & _ & Hnone); [discriminate|].
  exists dropped. split; [exact Hperm|]. split; [|reflexivity].
  apply Hnone. cbn. lia.
Defined.

Lemma filter_firstn_prefix {A} (p : A -> bool) (n : nat) (l : list A) :
  List.filter p l
  = (List.filter p (firstn n l) ++ List.filter p (skipn n l))%list.
Proof. now rewrite <- List.filter_app, firstn_skipn. Qed.

(** X2. Entries with the same seed count come back in the order in which the
    reply lists them: among the entries with [k] seeds, the returned ones
    are the first ones of the reply. *)
Theorem search_files_stable (c : Z) (ms : list movie) (url q : string)
    (ft : option string) (k : Z) :
  c <> 0 ->
  let reply :=
    ReplyBody {| status := Some "ok";
                 data := Some {| movie_count := Some c; movies := Some ms |} |} in
  exists later,
    List.filter (fun r => r_seeds r =? k) (collect ft ms)
    = (List.filter (fun r => r_seeds r =? k) (search_files reply url q ft)
       ++ later)%list.
Proof.
  intros Hc reply. unfold reply. rewrite search_files_ok by exact Hc.
  eexists. rewrite <- (sort_by_seeds_stable k (collect ft ms)).
  apply (filter_firstn_prefix _ 10).
Qed.

Lemma search_files_stable_witness :
  map r_quality
    (List.filter (fun r => r_seeds r =? 5)
       (search_files Sample.one_movie "yts.mx" "avengers" None))
  = ["720p"; "2160p"]
  /\ exists later,
       List.filter (fun r => r_seeds r =? 5) (collect None [Sample.avengers])
       = (List.filter (fun r => r_seeds r =? 5)
            (search_files Sample.one_movie "yts.mx" "avengers" None) ++ later)%list.
Proof.
  split; [reflexivity|].
  apply (search_files_stable 1 [Sample.avengers] "yts.mx" "avengers" None 5).
  discriminate.
Defined.

(** X3. Every entry returned is the entry of one torrent of one movie of the
    reply: its link, hash, seeds and quality are that torrent's, with the
    defaults of [.get] where a key is absent. *)
Theorem search_files_from_reply (reply : api_reply) (url q : string)
    (ft : option string) :
  Forall (fun r =>
    exists body md m t,
      reply = ReplyBody body /\ data body = Some md
      /\ In m (get (movies md) []) /\ In t (get (m_torrents m) [])
      /\ r_url r = get (t_url t) "" /\ r_hash r = get (t_hash t) ""
      /\ r_seeds r = get (t_seeds t) 0
      /\ r_quality r = get (t_quality t) "Unknown"
      /\ r_size r = get (t_size t) "Unknown size"
      /\ r_type r = "video")
    (search_files reply url q ft).
Proof.
  apply List.Forall_forall. intros r Hr. unfold search_files in Hr.
  destruct reply as [|body]; [destruct Hr|].
  destruct (negb _); [destruct Hr|].
  destruct (data body) as [md|] eqn:Hd; cbn [get] in Hr.
  2:{ cbn in Hr. destruct Hr. }
  destruct (_ =? 0); [destruct Hr|].
  apply firstn_incl in Hr.
  eapply Permutation_in in Hr; [|symmetry; apply sort_by_seeds_perm].
  unfold collect in Hr.
  apply in_flat_map in Hr as [m [Hm Hr]].
  apply in_flat_map in Hr as [t [Ht Hr]].
  unfold torrent_results in Hr.
  destruct (quality_mismatch ft _); [destruct Hr|].
  destruct Hr as [<-|[]].
  exists body, md, m, t. cbn. repeat split; auto.
Qed.

(** ** Handlers: exceptions and the session store *)

Lemma never_raises_ret {A} (a : A) : never_raises (ret a).
Proof. intros w. now exists a. Qed.

Lemma never_raises_try_except {A} (m : M A) (h : exn -> M A) :
  (forall e, never_raises (h e)) -> never_raises (try_except m h).
Proof.
  intros Hh w. unfold try_except.
  destruct (m w) as [[a|e] w1]; [now exists a | apply Hh].
Qed.

Lemma never_raises_guarded (m : M unit) :
  never_raises (try_except m (fun _ => ret tt)).
Proof. apply never_raises_try_except. intros _. apply never_raises_ret. Qed.

Lemma process_message_returns reply message w :
  fst (process_message reply message w) = Ret tt.
Proof.
  unfold process_message.
  match goal with
  | |- fst (try_except ?m ?h w) = _ =>
      destruct (never_raises_try_except m h (fun e => never_raises_guarded _) w)
        as [[] H]
  end.
  exact H.
Qed.

Lemma file_selection_returns env call user_id w :
  fst (_handle_file_selection env call user_id w) = Ret tt.
Proof.
  unfold _handle_file_selection.
  match goal with
  | |- fst (try_except ?m ?h w) = _ =>
      destruct (never_raises_try_except m h (fun e => never_raises_guarded _) w)
        as [[] H]
  end.
  exact H.
Qed.

(** X4. No exception leaves [process_message] or [_handle_file_selection],
    whatever the message or the press, the answers of the outside and the
    faults of the bot API. *)
Theorem handlers_never_raise (reply : api_reply) (message : message)
    (env : download_env) (call : callback) (user_id : Z) (w : world) :
  fst (process_message reply message w) = Ret tt
  /\ fst (_handle_file_selection env call user_id w) = Ret tt.
Proof.
  split; [apply process_message_returns | apply file_selection_returns].
Qed.

(** X5. [handle_callback] lets an exception out in one case only: the
    payload does not start with [file_] and the answer "Unknown callback"
    meets an API fault; the exception is that fault. *)
Theorem handle_callback_raises env call w e :
  fst (handle_callback env call w) = Raise e
  <-> startswith "file_" (call_data call) = false
      /\ hd None (faults w) = Some (str_of e)
      /\ class_of e = ApiException.
Proof.
  unfold handle_callback.
  destruct (startswith "file_" (call_data call)).
  - rewrite file_selection_returns. split; [discriminate | intros [H _]; discriminate].
  - unfold bind, call_api.
    destruct (faults w) as [|[msg|] fs]; cbn.
    + split; [discriminate | intros (_ & H & _); discriminate].
    + split.
      * intros H. injection H as <-. auto.
      * intros (_ & H & Hc). destruct e as [c m]. cbn in *. congruence.
    + split; [discriminate | intros (_ & H & _); discriminate].
Qed.

(** What a computation leaves alone. *)
Section Preserves.

Context {X : Type} (f : world -> X).
Hypothesis f_log : forall e w, f (log e w) = f w.
Hypothesis f_tick : forall w, f (tick w) = f w.
Hypothesis f_fresh : forall w, f (fresh_message w) = f w.

Lemma preserves_ret {A} (a : A) : preserves f (ret a).
Proof. intros w. reflexivity. Qed.

Lemma preserves_raise {A} c msg : preserves f (@raise A c msg).
Proof. intros w. reflexivity. Qed.

Lemma preserves_gets {A} (g : world -> A) : preserves f (gets g).
Proof. intros w. reflexivity. Qed.

Lemma preserves_modify (g : world -> world) :
  (forall w, f (g w) = f w) -> preserves f (modify g).
Proof. intros Hg w. apply Hg. Qed.

Lemma preserves_call_api (c : api_call) : preserves f (call_api c).
Proof.
  intros w. unfold call_api.
  destruct (faults w) as [|[msg|] fs]; destruct c; cbn;
    now rewrite ?f_fresh, f_log, f_tick.
Qed.

Lemma preserves_bind {A B} (m : M A) (k : A -> M B) :
  preserves f m -> (forall a, preserves f (k a)) -> preserves f (bind m k).
Proof.
  intros Hm Hk w. unfold bind. specialize (Hm w).
  destruct (m w) as [[a|e] w1]; cbn in Hm |- *; [|exact Hm].
  now rewrite Hk.
Qed.

Lemma preserves_try_except {A} (m : M A) (h : exn -> M A) :
  preserves f m -> (forall e, preserves f (h e)) -> preserves f (try_except m h).
Proof.
  intros Hm Hh w. unfold try_except. specialize (Hm w).
  destruct (m w) as [[a|e] w1]; cbn in Hm |- *; [exact Hm|].
  now rewrite Hh.
Qed.

Lemma preserves_try_finally {A} (m : M A) (g : M unit) :
  preserves f m -> preserves f g -> preserves f (try_finally m g).
Proof.
  intros Hm Hg w. unfold try_finally. specialize (Hm w).
  destruct (m w) as [r w1]; cbn in Hm. specialize (Hg w1).
  destruct (g w1) as [[u|e] w2]; cbn in Hg |- *; congruence.
Qed.

Lemma preserves_edit call text : preserves f (edit call text).
Proof.
  unfold edit. apply preserves_bind; [apply preserves_call_api|].
  intros _. apply preserves_ret.
Qed.

Lemma preserves_send_file call file_path caption :
  preserves f (send_file call file_path caption).
Proof.
  unfold send_file. apply preserves_bind; [apply preserves_gets|]. intros d.
  destruct file_path as [path|]; [|apply preserves_raise].
  destruct (if is_empty path then None else d !! path); [|apply preserves_raise].
  apply preserves_bind; [apply preserves_call_api | intros _; apply preserves_ret].
Qed.

Hypothesis f_disk : forall g w, f (set_disk g w) = f w.

Lemma preserves_write_chunks file_path cs : preserves f (write_chunks file_path cs).
Proof.
  induction cs as [|chunk rest IH]; [apply preserves_ret|].
  cbn [write_chunks]. apply preserves_bind; [|intros _; exact IH].
  destruct chunk; [apply preserves_ret|].
  unfold write. apply preserves_modify. intros w. apply f_disk.
Qed.

Lemma preserves_download_file env url filename :
  preserves f (download_file env url filename).
Proof.
  unfold download_file. destruct (is_empty url); [apply preserves_ret|].
  apply preserves_try_except.
  - apply preserves_bind.
    + unfold get_checked. apply preserves_bind.
      { apply preserves_modify. intros w. apply f_log. }
      intros _. destruct (http_get env) as [msg|r]; [apply preserves_raise|].
      destruct (http_error r); [apply preserves_raise | apply preserves_ret].
    + intros r. apply preserves_bind.
      * unfold declared_length.
        destruct (content_length r) as [h|]; [|apply preserves_ret].
        destruct (int h); [apply preserves_ret | apply preserves_raise].
      * intros n. destruct (n >? MAX_FILE_SIZE).
        -- apply preserves_bind; [|intros mb; apply preserves_ret].
           unfold size_in_mb.
           destruct (_ <=? _); [apply preserves_raise | apply preserves_ret].
        -- apply preserves_bind.
           { unfold open_wb. destruct (open_error env); [apply preserves_raise|].
             apply preserves_modify. intros w. apply f_disk. }
           intros _. apply preserves_bind; [apply preserves_write_chunks|].
           intros _. apply preserves_bind; [|intros _; apply preserves_ret].
           destruct (stream_error r); [apply preserves_raise | apply preserves_ret].
  - intros e. destruct (class_of e); apply preserves_ret.
Qed.

Lemma preserves_deliver env call selected_file :
  preserves f (deliver env call selected_file).
Proof.
  unfold deliver. apply preserves_bind; [apply preserves_call_api|].
  intros _. apply preserves_bind; [apply preserves_edit|]. intros _.
  apply preserves_bind; [apply preserves_download_file|].
  intros [[ok file_path] error_message].
  destruct (negb ok); [apply preserves_edit|].
  apply preserves_bind; [apply preserves_edit|]. intros _.
  apply preserves_try_finally.
  - apply preserves_try_except; [|intros e; apply preserves_edit].
    apply preserves_bind; [apply preserves_send_file|].
    intros _. apply preserves_edit.
  - destruct file_path as [path|]; [|apply preserves_ret].
    destruct (is_empty path); [apply preserves_ret|].
    unfold cleanup_file. apply preserves_modify. intros w. apply f_disk.
Qed.

Lemma preserves_handle_callback env call :
  preserves f (handle_callback env call).
Proof.
  unfold handle_callback. destruct (startswith "file_" (call_data call)).
  - unfold _handle_file_selection. apply preserves_try_except.
    + unfold select_file, parse_index.
      apply preserves_bind.
      { apply preserves_bind.
        - unfold getitem. destruct (_ || _); [apply preserves_raise|].
          destruct (nth_error _ _); [apply preserves_ret | apply preserves_raise].
        - intros piece. destruct (int piece); [apply preserves_ret | apply preserves_raise]. }
      intros i. apply preserves_bind; [apply preserves_gets|]. intros sessions.
      destruct (sessions !! call_from_user_id call) as [session|].
      * destruct (i >=? _).
        -- apply preserves_bind; [apply preserves_call_api | intros _; apply preserves_ret].
        -- apply preserves_bind; [|intros r; apply preserves_deliver].
           unfold getitem. destruct (_ || _); [apply preserves_raise|].
           destruct (nth_error _ _); [apply preserves_ret | apply preserves_raise].
      * apply preserves_bind; [apply preserves_call_api | intros _; apply preserves_edit].
    + intros e. apply preserves_try_except; [apply preserves_edit|].
      intros _. apply preserves_ret.
  - apply preserves_bind; [apply preserves_call_api | intros _; apply preserves_ret].
Qed.

End Preserves.

(** X6. A button press never changes the session store, whatever its
    payload and whatever the download and the bot API do. *)
Theorem handle_callback_keeps_sessions env call w :
  user_sessions (snd (handle_callback env call w)) = user_sessions w.
Proof.
  apply (preserves_handle_callback user_sessions); reflexivity.
Qed.

Lemma search_files_sorted reply url q ft :
  StronglySorted seeds_ge (search_files reply url q ft)
  /\ (length (search_files reply url q ft) <= 10)%nat.
Proof.
  unfold search_files. destruct reply as [|body]; [split; [constructor | simpl; lia]|].
  destruct (negb _); [split; [constructor | simpl; lia]|].
  destruct (_ =? 0); [split; [constructor | simpl; lia]|].
  split; [apply firstn_strongly_sorted, sort_by_seeds_sorted | apply firstn_le_length].
Qed.

Lemma search_error_preserves {X} (f : world -> X) chat :
  (forall e w, f (log e w) = f w) -> (forall w, f (tick w) = f w) ->
  (forall w, f (fresh_message w) = f w) ->
  preserves f (try_except (call_api (send_message chat search_error_text) ;;; ret tt)
                 (fun _ => ret tt)).
Proof.
  intros Hl Ht Hf. apply preserves_try_except.
  - apply preserves_bind; [now apply preserves_call_api | intros _; apply preserves_ret].
  - intros _. apply preserves_ret.
Qed.

(** The session store after [process_message]: as it was, or with the entry
    of the sender replaced by the non-empty list just found. *)
Lemma process_message_sessions reply message w :
  let w' := snd (process_message reply message w) in
  user_sessions w' = user_sessions w
  \/ exists ft q,
       search_files reply "yts.mx" q ft <> []
       /\ user_sessions w' =
          <[msg_from_user_id message :=
              {| search_results := search_files reply "yts.mx" q ft;
                 query := q; file_type := ft |}]> (user_sessions w).
Proof.
  intros w'. subst w'.
  assert (Hh : forall w0,
            user_sessions
              (snd (try_except
                      (call_api (send_message (msg_chat_id message) search_error_text) ;;;
                       ret tt) (fun _ => ret tt) w0))
            = user_sessions w0).
  { intros w0. now apply (search_error_preserves user_sessions). }
  unfold process_message.
  destruct (startswith "/" (msg_text message)); [now left|].
  destruct (parse_query (msg_text message)) as [ft q].
  destruct (is_empty q).
  - left. revert w. apply preserves_try_except.
    + apply preserves_bind; [now apply preserves_call_api | intros _; apply preserves_ret].
    + intros e w0. apply Hh.
  - cbv [try_except bind scraper_search modify ret].
    pose proof (preserves_call_api user_sessions
                  (fun _ _ => eq_refl) (fun _ => eq_refl) (fun _ => eq_refl)
                  (send_message (msg_chat_id message) (searching_text q ft)) w) as Hk.
    destruct (call_api _ w) as [[id|e] w1]; cbn in Hk.
    2:{ left. unfold try_except, bind, ret in Hh. rewrite Hh. exact Hk. }
    set (w2 := log _ w1).
    assert (Hs2 : user_sessions w2 = user_sessions w) by exact Hk.
    clearbody w2. clear Hk w1.
    destruct (search_files reply "yts.mx" q ft) as [|r rs] eqn:Hres.
    + left.
      pose proof (preserves_call_api user_sessions
                    (fun _ _ => eq_refl) (fun _ => eq_refl) (fun _ => eq_refl)
                    (edit_message_text (no_results_text q) (msg_chat_id message) id None)
                    w2) as Hk.
      destruct (call_api _ w2) as [[x|e] w3]; cbn in Hk |- *; [congruence|].
      unfold try_except, bind, ret in Hh. rewrite Hh. congruence.
    + right. exists ft, q. rewrite Hres. split; [discriminate|].
      set (w3 := set_sessions _ w2).
      assert (Hs3 : user_sessions w3
                    = <[msg_from_user_id message :=
                          {| search_results := r :: rs; query := q; file_type := ft |}]>
                        (user_sessions w)).
      { unfold w3. cbn. now rewrite Hs2. }
      clearbody w3.
      pose proof (preserves_call_api user_sessions
                    (fun _ _ => eq_refl) (fun _ => eq_refl) (fun _ => eq_refl)
                    (edit_message_text (found_text (r :: rs) q) (msg_chat_id message) id
                       (Some (keyboard_from 0 (r :: rs)))) w3) as Hk.
      destruct (call_api _ w3) as [[x|e] w4]; cbn in Hk |- *; [congruence|].
      unfold try_except, bind, ret in Hh. rewrite Hh. congruence.
Qed.

Lemma process_message_disk reply message w :
  disk (snd (process_message reply message w)) = disk w.
Proof.
  revert w. unfold process_message. apply preserves_try_except.
  - destruct (startswith "/" (msg_text message)); [apply preserves_ret|].
    destruct (parse_query (msg_text message)) as [ft q].
    destruct (is_empty q).
    + apply preserves_bind; [now apply preserves_call_api | intros _; apply preserves_ret].
    + apply preserves_bind; [now apply preserves_call_api|]. intros id.
      apply preserves_bind.
      { unfold scraper_search. apply preserves_bind; [|intros _; apply preserves_ret].
        now apply preserves_modify. }
      intros [|r rs].
      * apply preserves_bind; [now apply preserves_call_api | intros _; apply preserves_ret].
      * apply preserves_bind; [now apply preserves_modify|]. intros _.
        apply preserves_bind; [now apply preserves_call_api | intros _; apply preserves_ret].
  - intros e. now apply search_error_preserves.
Qed.

(** X7. A message only ever touches the session of its sender: the entries
    of all other users, and the disk, are as they were. *)
Theorem process_message_isolated reply message w :
  (forall user_id,
     user_id <> msg_from_user_id message ->
     user_sessions (snd (process_message reply message w)) !! user_id
     = user_sessions w !! user_id)
  /\ disk (snd (process_message reply message w)) = disk w.
Proof.
  split; [|apply process_message_disk].
  intros user_id Hne.
  destruct (process_message_sessions reply message w) as [->|(ft & q & _ & ->)];
    [reflexivity|].
  now rewrite lookup_insert_ne.
Qed.

Lemma process_message_isolated_witness :
  let w' := snd (process_message Sample.one_movie
                   (Sample.text_from 8 80 "avengers") Sample.searched) in
  user_sessions w' !! 7 = Some Sample.stored
  /\ (exists s, user_sessions w' !! 8 = Some s /\ length (search_results s) = 3%nat).
Proof.
  intros w'. subst w'. split.
  - rewrite (proj1 (process_message_isolated Sample.one_movie
                      (Sample.text_from 8 80 "avengers") Sample.searched) 7).
    + vm_compute. reflexivity.
    + cbn. lia.
  - eexists. split; [vm_compute; reflexivity | reflexivity].
Defined.

(** X8. Every stored session holds a non-empty list of at most ten results
    in descending order of seeds: the empty store has the property, and
    [process_message] and [handle_callback] keep it. *)
Theorem store_ok_invariant reply message env call w :
  store_ok w ->
  store_ok (snd (process_message reply message w))
  /\ store_ok (snd (handle_callback env call w)).
Proof.
  intros Hok. split.
  - intros user_id s Hs.
    destruct (process_message_sessions reply message w) as [H|(ft & q & Hne & H)];
      rewrite H in Hs; [now apply (Hok user_id)|].
    destruct (decide (user_id = msg_from_user_id message)) as [->|Hother].
    + rewrite lookup_insert_eq in Hs. injection Hs as <-.
      destruct (search_files_sorted reply "yts.mx" q ft) as [Hsorted Hlen].
      repeat split; assumption.
    + rewrite lookup_insert_ne in Hs by congruence. now apply (Hok user_id).
  - intros user_id s Hs.
    rewrite (preserves_handle_callback user_sessions
               (fun _ _ => eq_refl) (fun _ => eq_refl) (fun _ => eq_refl)
               (fun _ _ => eq_refl)) in Hs.
    now apply (Hok user_id).
Qed.

Lemma store_ok_empty : store_ok Sample.fresh.
Proof. intros user_id s H. cbn in H. rewrite lookup_empty in H. discriminate. Qed.

Lemma store_ok_invariant_witness :
  store_ok Sample.searched
  /\ store_ok (snd (handle_callback (Sample.answer None []) (Sample.press 7 70 "file_0")
                      Sample.searched)).
Proof.
  split.
  - exact (proj1 (store_ok_invariant Sample.one_movie
                    (Sample.text_from 7 70 "Avengers 1080P")
                    (Sample.answer None []) (Sample.press 7 70 "file_0")
                    Sample.fresh store_ok_empty)).
  - apply (store_ok_invariant Sample.one_movie (Sample.text_from 7 70 "Avengers 1080P")
             (Sample.answer None []) (Sample.press 7 70 "file_0") Sample.searched).
    exact (proj1 (store_ok_invariant Sample.one_movie
                    (Sample.text_from 7 70 "Avengers 1080P")
                    (Sample.answer None []) (Sample.press 7 70 "file_0")
                    Sample.fresh store_ok_empty)).
Defined.

(** ** download_file: results and what it touches *)

Lemma write_chunks_frame (file_path : string) (cs : list bytes) (w : world) :
  exists w',
    write_chunks file_path cs w = (Ret tt, w')
    /\ trace w' = trace w
    /\ forall p, p <> file_path -> disk w' !! p = disk w !! p.
Proof.
  revert w. induction cs as [|chunk rest IH]; intros w.
  - exists w. auto.
  - cbn [write_chunks]. destruct chunk as [|b chunk].
    + destruct (IH w) as (w' & Hrun & Ht & Hd).
      exists w'. unfold bind, ret. now rewrite Hrun.
    + unfold bind, write, modify.
      match goal with
      | |- context [write_chunks file_path rest ?w1] =>
          destruct (IH w1) as (w' & Hrun & Ht & Hd); exists w'; rewrite Hrun
      end.
      split; [reflexivity|]. split; [exact Ht|].
      intros p Hp. rewrite Hd by exact Hp. cbn. now rewrite lookup_insert_ne.
Qed.

Lemma download_accepted_frame env url filename r n w :
  is_empty url = false ->
  http_get env = GetResponse r ->
  http_error r = None ->
  (forall w0, declared_length r w0 = (Ret n, w0)) ->
  n <= MAX_FILE_SIZE ->
  open_error env = None ->
  let file_path := path_join (DOWNLOAD_DIR env) (chosen_filename env url filename) in
  exists w',
    download_file env url filename w =
    ( match stream_error r with
      | None => Ret (true, Some file_path, None)
      | Some msg => Ret (false, None, Some ("Download error: " +:+ msg))
      end, w' )
    /\ disk w' !! file_path = Some (concat (chunks r))
    /\ trace w' = (trace w ++ [HttpGet url []])%list
    /\ forall p, p <> file_path -> disk w' !! p = disk w !! p.
Proof.
  intros Hurl Hget Herr Hdecl Hn Hopen file_path.
  assert (Hgt : (n >? MAX_FILE_SIZE) = false)
    by (rewrite Z.gtb_ltb; apply Z.ltb_ge; lia).
  set (w1 := set_disk (fun d => <[file_path := []]> d) (log (HttpGet url []) w)).
  destruct (write_chunks_disk file_path (chunks r) w1 [])
    as (w' & Hrun & Hd & _ & Ht).
  { unfold w1. cbn. apply lookup_insert_eq. }
  destruct (write_chunks_frame file_path (chunks r) w1) as (w2 & Hrun' & _ & Hf).
  rewrite Hrun in Hrun'. injection Hrun' as <-.
  exists w'. split; [|split; [exact Hd|split; [exact Ht|]]].
  - unfold download_file. rewrite Hurl. fold file_path.
    cbv [try_except bind get_checked modify]. rewrite Hget, Herr.
    cbv [ret]. rewrite Hdecl, Hgt.
    unfold open_wb. rewrite Hopen. cbv [modify]. fold w1. rewrite Hrun.
    destruct (stream_error r); reflexivity.
  - intros p Hp. rewrite Hf by exact Hp. unfold w1. cbn.
    now rewrite lookup_insert_ne.
Qed.

(** Every way [download_file] can end. *)
Lemma download_file_cases env url filename w :
  let file_path := path_join (DOWNLOAD_DIR env) (chosen_filename env url filename) in
  exists res w',
    download_file env url filename w = (Ret res, w')
    /\ ((res = (true, Some file_path, None)
         /\ exists r, http_get env = GetResponse r
                      /\ disk w' !! file_path = Some (concat (chunks r)))
        \/ exists msg, res = (false, None, Some msg))
    /\ trace w' = (trace w ++ if is_empty url then [] else [HttpGet url []])%list
    /\ forall p, p <> file_path -> disk w' !! p = disk w !! p.
Proof.
  intros file_path.
  destruct (is_empty url) eqn:Hurl.
  { exists (false, None, Some "URL is empty"), w.
    unfold download_file. rewrite Hurl. cbn. rewrite app_nil_r. eauto 6. }
  destruct (http_get env) as [msg|r] eqn:Hget.
  { exists (false, None, Some ("Download error: " +:+ msg)), (log (HttpGet url []) w).
    unfold download_file. rewrite Hurl.
    cbv [try_except bind get_checked modify ret]. rewrite Hget. cbn. eauto 6. }
  destruct (http_error r) as [msg|] eqn:Herr.
  { exists (false, None, Some ("Download error: " +:+ msg)), (log (HttpGet url []) w).
    unfold download_file. rewrite Hurl.
    cbv [try_except bind get_checked modify ret]. rewrite Hget, Herr. cbn. eauto 6. }
  assert (Hknown : forall n, (forall w0, declared_length r w0 = (Ret n, w0)) ->
    exists res w',
      download_file env url filename w = (Ret res, w')
      /\ ((res = (true, Some file_path, None)
           /\ exists r0, GetResponse r = GetResponse r0
                         /\ disk w' !! file_path = Some (concat (chunks r0)))
          \/ exists msg, res = (false, None, Some msg))
      /\ trace w' = (trace w ++ [HttpGet url []])%list
      /\ forall p, p <> file_path -> disk w' !! p = disk w !! p).
  { intros n Hdecl. destruct (Z_gt_le_dec n MAX_FILE_SIZE) as [Hbig|Hsmall].
    - rewrite (download_rejected env url filename r n Hurl Hget Herr Hdecl w Hbig).
      eexists _, _. split; [reflexivity|]. cbn. eauto 6.
    - destruct (open_error env) as [msg|] eqn:Hopen.
      + rewrite (download_open_fails env url filename r n Hurl Hget Herr Hdecl w msg
                   Hsmall Hopen).
        eexists _, _. split; [reflexivity|]. cbn. eauto 6.
      + destruct (download_accepted_frame env url filename r n w Hurl Hget Herr Hdecl
                    Hsmall Hopen) as (w' & Hrun & Hd & Ht & Hf).
        rewrite Hrun. fold file_path in Hd, Hf.
        destruct (stream_error r) as [msg|].
        * eexists _, w'. split; [reflexivity|]. eauto 6.
        * eexists _, w'. split; [reflexivity|].
          split; [left; split; [reflexivity|]; exists r; auto|]. auto. }
  destruct (content_length r) as [h|] eqn:Hh.
  - destruct (int h) as [n|] eqn:Hint.
    + apply (Hknown n). intros w0. now apply (declared_length_int r h n).
    + exists (false, None, Some ("Unexpected error: " +:+ invalid_literal h)),
             (log (HttpGet url []) w).
      unfold download_file. rewrite Hurl.
      cbv [try_except bind get_checked modify ret]. rewrite Hget, Herr.
      unfold declared_length. rewrite Hh, Hint. cbn. eauto 6.
  - apply (Hknown 0). intros w0. now apply declared_length_absent.
Qed.

(** X9. [download_file] never raises, and its triple is one of two shapes:
    success with the path and no message, in which case the file at that
    path holds the whole body; or failure with no path and a message. *)
Theorem download_file_result env url filename w :
  let file_path := path_join (DOWNLOAD_DIR env) (chosen_filename env url filename) in
  let run := download_file env url filename w in
  (fst run = Ret (true, Some file_path, None)
   /\ exists r, http_get env = GetResponse r
                /\ disk (snd run) !! file_path = Some (concat (chunks r)))
  \/ exists msg, fst run = Ret (false, None, Some msg).
Proof.
  intros file_path run.
  destruct (download_file_cases env url filename w)
    as (res & w' & Hrun & [[-> Hbody]|[msg ->]] & _).
  - left. unfold run. rewrite Hrun. auto.
  - right. exists msg. unfold run. now rewrite Hrun.
Qed.

(** X10. [download_file] sends one GET, for the URL it was given (none when
    the URL is empty), leaves the sessions alone, and changes no file other
    than the one at its own path. *)
Theorem download_file_frame env url filename w :
  let file_path := path_join (DOWNLOAD_DIR env) (chosen_filename env url filename) in
  let w' := snd (download_file env url filename w) in
  trace w' = (trace w ++ if is_empty url then [] else [HttpGet url []])%list
  /\ user_sessions w' = user_sessions w
  /\ forall p, p <> file_path -> disk w' !! p = disk w !! p.
Proof.
  intros file_path w'. subst w'.
  destruct (download_file_cases env url filename w)
    as (res & w' & Hrun & _ & Ht & Hd).
  split; [now rewrite Hrun|]. split; [|now rewrite Hrun].
  apply (preserves_download_file user_sessions); reflexivity.
Qed.



(** X12. A [Content-Length] that is not an integer literal makes the
    download fail with the message of the [ValueError], which shows the
    first 200 characters of the [repr] of the header, before a file is
    opened: the disk is as it was.  The header is ASCII and of at most 4300
    characters, the texts on which [int] is that of every interpreter. *)
Theorem download_malformed_length env url filename r h w :
  is_empty url = false ->
  http_get env = GetResponse r ->
  http_error r = None ->
  content_length r = Some h ->
  int_plain h = true ->
  int h = None ->
  download_file env url filename w
  = (Ret (false, None,
          Some ("Unexpected error: invalid literal for int() with base 10: "
                +:+ slice_chars 200 (repr h))),
     log (HttpGet url []) w).
Proof.
  intros Hurl Hget Herr Hh _ Hint.
  unfold download_file. rewrite Hurl.
  cbv [try_except bind get_checked modify ret]. rewrite Hget, Herr.
  unfold declared_length. rewrite Hh, Hint. reflexivity.
Qed.

Lemma download_malformed_length_witness :
  download_file (Sample.answer (Some "12, 12") [[Byte.x64]])
    "https://yts.mx/torrent/download/ABC.torrent" None Sample.fresh
  = (Ret (false, None,
          Some "Unexpected error: invalid literal for int() with base 10: '12, 12'"),
     log (HttpGet "https://yts.mx/torrent/download/ABC.torrent" []) Sample.fresh).
Proof.
  exact (download_malformed_length (Sample.answer (Some "12, 12") [[Byte.x64]])
           "https://yts.mx/torrent/download/ABC.torrent" None
           {| http_error := None; content_length := Some "12, 12";
              chunks := [[Byte.x64]]; stream_error := None |}
           "12, 12" Sample.fresh eq_refl eq_refl eq_refl eq_refl eq_refl eq_refl).
Defined.

Lemma append_assoc3 (a b c : string) : (a +:+ b) +:+ c = a +:+ (b +:+ c).
Proof.
  induction a as [|x a IH]; [reflexivity|].
  change (String x ((a +:+ b) +:+ c) = String x (a +:+ (b +:+ c))).
  now rewrite IH.
Qed.

Lemma length_append (a b : string) :
  String.length (a +:+ b) = (String.length a + String.length b)%nat.
Proof.
  induction a as [|x a IH]; [reflexivity|].
  change (S (String.length (a +:+ b)) = S (String.length a + String.length b)).
  now rewrite IH.
Qed.

Lemma slice_from_append (a b : string) : slice_from (String.length a) (a +:+ b) = b.
Proof. induction a as [|x a IH]; [reflexivity | exact IH]. Qed.

Lemma endswith_append (a p : string) : endswith p (a +:+ p) = true.
Proof.
  unfold endswith. rewrite length_append.
  replace (String.length a + String.length p - String.length p)%nat
    with (String.length a) by lia.
  rewrite slice_from_append, String.eqb_refl.
  apply andb_true_iff. split; [apply Nat.leb_le; lia | reflexivity].
Qed.

(** X13. When the caller gives no file name, the file is created inside
    [DOWNLOAD_DIR], under a name made of [movie_] or [file_] and the random
    characters; it ends in [.torrent] when the URL does. *)
Theorem generated_path env url filename :
  is_empty (get filename "") = true ->
  let file_path := path_join (DOWNLOAD_DIR env) (chosen_filename env url filename) in
  startswith (DOWNLOAD_DIR env) file_path = true
  /\ (exists name,
        (name = "movie_" +:+ random_string env +:+ ".torrent"
         \/ name = "file_" +:+ random_string env)
        /\ (file_path = DOWNLOAD_DIR env +:+ name
            \/ file_path = DOWNLOAD_DIR env +:+ "/" +:+ name))
  /\ (endswith ".torrent" url = true -> endswith ".torrent" file_path = true).
Proof.
  intros Hnone file_path.
  assert (Hname : chosen_filename env url filename
                  = if endswith ".torrent" url
                    then "movie_" +:+ random_string env +:+ ".torrent"
                    else "file_" +:+ random_string env).
  { unfold chosen_filename. destruct filename as [f|]; [|reflexivity].
    cbn in Hnone. now rewrite Hnone. }
  subst file_path. rewrite Hname. clear Hname. unfold path_join.
  destruct (endswith ".torrent" url).
  - change (startswith "/" ("movie_" +:+ random_string env +:+ ".torrent"))
      with false. cbv iota.
    destruct (is_empty (DOWNLOAD_DIR env) || endswith "/" (DOWNLOAD_DIR env)).
    + split; [apply startswith_append|]. split; [eauto 6|]. intros _.
      rewrite <- !append_assoc3. apply endswith_append.
    + split; [apply startswith_append|]. split; [eauto 6|]. intros _.
      rewrite <- !append_assoc3. apply endswith_append.
  - change (startswith "/" ("file_" +:+ random_string env)) with false. cbv iota.
    destruct (is_empty (DOWNLOAD_DIR env) || endswith "/" (DOWNLOAD_DIR env)).
    + split; [apply startswith_append|]. split; [eauto 6|]. discriminate.
    + split; [apply startswith_append|]. split; [eauto 6|]. discriminate.
Qed.

Lemma generated_path_witness :
  path_join "/tmp/telegram_downloads"
    (chosen_filename (Sample.answer None []) "https://yts.mx/t/ABC.torrent" None)
  = "/tmp/telegram_downloads/movie_a1b2c3d4e5.torrent"
  /\ startswith "/tmp/telegram_downloads"
       (path_join "/tmp/telegram_downloads"
          (chosen_filename (Sample.answer None []) "https://yts.mx/t/ABC.torrent" None))
     = true.
Proof.
  split; [reflexivity|].
  exact (proj1 (generated_path (Sample.answer None []) "https://yts.mx/t/ABC.torrent"
                  None eq_refl)).
Defined.

(** ** Button presses: the paths of [_handle_file_selection] *)

Lemma bind_run {A B} (m : M A) (k : A -> M B) w a w' :
  m w = (Ret a, w') -> bind m k w = k a w'.
Proof. intros H. unfold bind. now rewrite H. Qed.

Lemma call_api_ok (c : api_call) (w : world) :
  hd None (faults w) = None ->
  call_api c w
  = ( Ret (match c with send_message _ _ => next_message_id w | _ => 0 end),
      match c with
      | send_message _ _ => fresh_message (log (Api c None) (tick w))
      | _ => log (Api c None) (tick w)
      end ).
Proof.
  intros H. unfold call_api.
  destruct (faults w) as [|[msg|] fs]; cbn in H; try discriminate;
    destruct c; reflexivity.
Qed.

Lemma edit_ok call text w :
  hd None (faults w) = None ->
  edit call text w
  = (Ret tt, log (Api (edit_message_text text (call_chat_id call)
                         (call_message_id call) None) None) (tick w)).
Proof.
  intros H. unfold edit. rewrite (bind_run _ _ _ _ _ (call_api_ok _ w H)).
  reflexivity.
Qed.

Lemma getitem_at {A} (l : list A) (i : Z) (x : A) (w : world) :
  0 <= i -> nth_error l (Z.to_nat i) = Some x -> getitem l i w = (Ret x, w).
Proof.
  intros Hi Hx. unfold getitem.
  assert (Hlt : (Z.to_nat i < length l)%nat).
  { apply nth_error_Some. congruence. }
  assert (H1 : (i <? 0) = false) by (apply Z.ltb_ge; lia).
  assert (H2 : (Z.of_nat (length l) <=? i) = false) by (apply Z.leb_gt; lia).
  rewrite H1, H1, H2, Hx. reflexivity.
Qed.

(** A press with an index inside the stored list goes on with that entry. *)
Lemma select_valid env call user_id w session i r :
  user_sessions w !! user_id = Some session ->
  parse_index (call_data call) w = (Ret i, w) ->
  0 <= i ->
  nth_error (search_results session) (Z.to_nat i) = Some r ->
  _handle_file_selection env call user_id w
  = try_except (deliver env call r)
      (fun _ => try_except (edit call selection_error_text) (fun _ => ret tt)) w.
Proof.
  intros Hsession Hparse Hi Hr.
  assert (Hlt : (Z.to_nat i < length (search_results session))%nat).
  { apply nth_error_Some. congruence. }
  assert (Hcheck : (i >=? Z.of_nat (length (search_results session))) = false).
  { rewrite Z.geb_leb. apply Z.leb_gt. lia. }
  unfold _handle_file_selection, try_except, select_file.
  rewrite (bind_run _ _ _ _ _ Hparse).
  unfold bind at 1, gets. rewrite Hsession, Hcheck.
  rewrite (bind_run _ _ _ _ _ (getitem_at _ i r w Hi Hr)). reflexivity.
Qed.














(** X17. A press from a user who has no stored session is answered with the
    session-expired notice and the message is edited to the same text; no
    request is sent and the disk and the sessions are untouched.  A fault on
    either call is taken by the [except] clause, which edits the message to
    the generic error. *)
Theorem expired_session env call user_id w i :
  user_sessions w !! user_id = None ->
  parse_index (call_data call) w = (Ret i, w) ->
  let run := _handle_file_selection env call user_id w in
  let edit_of text := edit_message_text text (call_chat_id call)
                        (call_message_id call) None in
  let f1 := hd None (faults w) in
  let f2 := hd None (tl (faults w)) in
  let f3 := hd None (tl (tl (faults w))) in
  trace (snd run) =
    (trace w ++
     Api (answer_callback_query (call_id call) (Some expired_text)) f1
     :: match f1 with
        | Some _ => [Api (edit_of selection_error_text) f2]
        | None =>
            Api (edit_of expired_text) f2
            :: match f2 with
               | Some _ => [Api (edit_of selection_error_text) f3]
               | None => []
               end
        end)%list
  /\ user_sessions (snd run) = user_sessions w
  /\ disk (snd run) = disk w.
Proof.
  intros Hsession Hparse run edit_of f1 f2 f3. subst run edit_of f1 f2 f3.
  unfold _handle_file_selection, select_file.
  cbv [try_except bind gets]. rewrite Hparse, Hsession.
  unfold call_api, edit, bind, call_api.
  destruct (faults w) as [|[m1|] [|[m2|] [|[m3|] fs]]] eqn:Hf;
    cbn; repeat (rewrite Hf; cbn); rewrite <- ?app_assoc; auto.
Qed.

Lemma expired_session_witness :
  let env := Sample.answer None [[Byte.x64]] in
  trace (snd (_handle_file_selection env (Sample.press 9 90 "file_0") 9 Sample.searched))
  = (trace Sample.searched ++
     [ Api (answer_callback_query "cb1"
              (Some "Search session expired. Please search again.")) None;
       Api (edit_message_text "Search session expired. Please search again." 90 1 None)
         None ])%list.
Proof.
  intros env.
  assert (Hs : user_sessions Sample.searched !! 9 = None) by (vm_compute; reflexivity).
  exact (proj1 (expired_session env (Sample.press 9 90 "file_0") 9 Sample.searched 0
                  Hs eq_refl)).
Defined.

(** ** Buttons: from the keyboard back to the entry *)

Lemma digit_char (c : ascii) (v : Z) :
  digit_of c = Some v -> Ascii.eqb c "_" = false /\ int_space c = false.
Proof.
  destruct c as [[] [] [] [] [] [] [] []]; vm_compute; intros H;
    try discriminate H; split; reflexivity.
Qed.

Lemma all_digits_cons c r :
  all_digits (String c r) = true ->
  exists v, digit_of c = Some v /\ all_digits r = true.
Proof.
  cbn [all_digits]. destruct (digit_of c) as [v|]; [|discriminate].
  intros H. exists v. auto.
Qed.

Lemma int_rstrip_digits (s : string) : all_digits s = true -> int_rstrip s = s.
Proof.
  induction s as [|c r IH]; [reflexivity|]. intros H.
  destruct (all_digits_cons c r H) as (v & Hv & Hr).
  cbn [int_rstrip]. rewrite (IH Hr), (proj2 (digit_char c v Hv)).
  now destruct r.
Qed.

Lemma split_digits (s : string) : all_digits s = true -> split "_" s = [s].
Proof.
  induction s as [|c r IH]; [reflexivity|]. intros H.
  destruct (all_digits_cons c r H) as (v & Hv & Hr).
  cbn [split]. now rewrite (proj1 (digit_char c v Hv)), (IH Hr).
Qed.

Lemma int_digit_string (s : string) :
  all_digits s = true -> s <> "" -> int s = int_digits 0 s.
Proof.
  intros H Hne. destruct s as [|c r]; [congruence|].
  destruct (all_digits_cons c r H) as (v & Hv & Hr).
  unfold int.
  assert (Hl : int_lstrip (String c r) = String c r).
  { cbn [int_lstrip]. now rewrite (proj2 (digit_char c v Hv)). }
  rewrite Hl, (int_rstrip_digits _ H).
  cbn [int_digits]. rewrite Hv.
  destruct c as [[] [] [] [] [] [] [] []]; try (vm_compute in Hv; discriminate Hv);
    unfold int_unsigned; rewrite Hv; reflexivity.
Qed.

Lemma string_of_uint_digits (d : Decimal.uint) :
  all_digits (NilEmpty.string_of_uint d) = true.
Proof. induction d; cbn; auto. Qed.

Lemma int_digits_uint (d : Decimal.uint) (acc : Z) :
  int_digits acc (NilEmpty.string_of_uint d) = Some (uint_value acc d).
Proof.
  revert acc. induction d; intros acc; cbn [NilEmpty.string_of_uint uint_value];
    [reflexivity | ..];
    cbn [int_digits];
    match goal with
    | |- context [digit_of ?c] =>
        let v := eval vm_compute in (digit_of c) in
        change (digit_of c) with v; cbv iota
    end;
    rewrite ?Z.add_0_r; apply IHd.
Qed.

Lemma uint_value_revapp (d d' : Decimal.uint) :
  uint_value (Z.of_N (DecimalPos.Unsigned.of_lu d')) d
  = Z.of_N (DecimalPos.Unsigned.of_lu (Decimal.revapp d d')).
Proof.
  revert d'. induction d; intros d'; cbn [uint_value Decimal.revapp];
    [reflexivity | ..];
    rewrite <- IHd; f_equal; cbn [DecimalPos.Unsigned.of_lu]; lia.
Qed.

Lemma uint_value_pos (p : positive) : uint_value 0 (Pos.to_uint p) = Z.pos p.
Proof.
  change 0 with (Z.of_N (DecimalPos.Unsigned.of_lu Decimal.Nil)).
  rewrite uint_value_revapp.
  change (Decimal.revapp (Pos.to_uint p) Decimal.Nil)
    with (Decimal.rev (Pos.to_uint p)).
  now rewrite <- DecimalPos.Unsigned.of_uint_alt, DecimalPos.Unsigned.of_to.
Qed.

Lemma str_of_Z_digits (n : Z) :
  0 <= n -> all_digits (str_of_Z n) = true /\ str_of_Z n <> "".
Proof.
  intros Hn. unfold str_of_Z. destruct n as [|p|p]; [split; [reflexivity|discriminate]| |lia].
  cbn [Z.to_int NilZero.string_of_int]. unfold NilZero.string_of_uint.
  pose proof (DecimalPos.Unsigned.to_uint_nonnil p) as Hnil.
  destruct (Pos.to_uint p) eqn:E; try congruence;
    rewrite <- E; (split; [apply string_of_uint_digits|]);
    rewrite E; discriminate.
Qed.

(** Printing a natural number and reading it back with [int]. *)
Lemma int_str_of_Z (n : Z) : 0 <= n -> int (str_of_Z n) = Some n.
Proof.
  intros Hn. destruct (str_of_Z_digits n Hn) as [Hd Hne].
  rewrite (int_digit_string _ Hd Hne).
  unfold str_of_Z. destruct n as [|p|p]; [reflexivity| |lia].
  cbn [Z.to_int NilZero.string_of_int]. unfold NilZero.string_of_uint.
  pose proof (DecimalPos.Unsigned.to_uint_nonnil p) as Hnil.
  rewrite <- (uint_value_pos p).
  destruct (Pos.to_uint p) eqn:E; try congruence; rewrite <- E; apply int_digits_uint.
Qed.

Lemma parse_index_button (n : Z) (w : world) :
  0 <= n -> parse_index ("file_" +:+ str_of_Z n) w = (Ret n, w).
Proof.
  intros Hn. destruct (str_of_Z_digits n Hn) as [Hd _].
  unfold parse_index.
  assert (Hsplit : split "_" ("file_" +:+ str_of_Z n) = ["file"; str_of_Z n]).
  { change ("file_" +:+ str_of_Z n)
      with (String "f" (String "i" (String "l" (String "e" (String "_" (str_of_Z n)))))).
    cbn [split Ascii.eqb Bool.eqb]. now rewrite (split_digits _ Hd). }
  rewrite Hsplit.
  assert (Hget : getitem ["file"; str_of_Z n] 1 w = (Ret (str_of_Z n), w)) by reflexivity.
  rewrite (bind_run _ _ _ _ _ Hget). now rewrite (int_str_of_Z n Hn).
Qed.

Lemma keyboard_from_nth (k : Z) (results : list result) (i : nat) (r : result) :
  nth_error results i = Some r ->
  exists b,
    nth_error (keyboard_from k results) i = Some b
    /\ callback_data b = "file_" +:+ str_of_Z (k + Z.of_nat i).
Proof.
  revert k i. induction results as [|x rest IH]; intros k i Hr.
  - destruct i; discriminate.
  - destruct i as [|i]; cbn [keyboard_from nth_error] in *.
    + eexists. split; [reflexivity|]. cbn. now rewrite Z.add_0_r.
    + destruct (IH (k + 1) i Hr) as (b & Hb & Hdata).
      exists b. split; [exact Hb|]. rewrite Hdata. do 2 f_equal. lia.
Qed.

(** X18. The keyboard and the selection agree: the [i]-th button built from
    a list of results carries a payload that [handle_callback] recognises,
    reads back as [i], and resolves to the [i]-th entry of that list, with
    which the handler goes on. *)
Theorem button_round_trip env call w session (i : nat) (r : result) :
  user_sessions w !! call_from_user_id call = Some session ->
  nth_error (search_results session) i = Some r ->
  nth_error (map callback_data (keyboard_from 0 (search_results session))) i
  = Some (call_data call) ->
  parse_index (call_data call) w = (Ret (Z.of_nat i), w)
  /\ handle_callback env call w
     = try_except (deliver env call r)
         (fun _ => try_except (edit call selection_error_text) (fun _ => ret tt)) w.
Proof.
  intros Hsession Hr Hbutton.
  destruct (keyboard_from_nth 0 _ i r Hr) as (b & Hb & Hdata).
  rewrite nth_error_map, Hb in Hbutton. cbn in Hbutton.
  injection Hbutton as Hcall. rewrite Hdata in Hcall. cbn [Z.add] in Hcall.
  assert (Hparse : parse_index (call_data call) w = (Ret (Z.of_nat i), w)).
  { rewrite <- Hcall. apply parse_index_button. lia. }
  split; [exact Hparse|].
  assert (Hstart : startswith "file_" (call_data call) = true).
  { rewrite <- Hcall. reflexivity. }
  unfold handle_callback. rewrite Hstart.
  apply (select_valid env call _ w session (Z.of_nat i) r Hsession Hparse); [lia|].
  now rewrite Nat2Z.id.
Qed.

Lemma button_round_trip_witness :
  let env := Sample.answer None [[Byte.x64]] in
  map callback_data (keyboard_from 0 (search_results Sample.stored)) = ["file_0"]
  /\ handle_callback env (Sample.press 7 70 "file_0") Sample.searched
     = try_except (deliver env (Sample.press 7 70 "file_0") Sample.stored_entry)
         (fun _ => try_except
                     (edit (Sample.press 7 70 "file_0") selection_error_text)
                     (fun _ => ret tt))
         Sample.searched.
Proof.
  intros env. split; [reflexivity|].
  assert (Hs : user_sessions Sample.searched
                 !! call_from_user_id (Sample.press 7 70 "file_0")
               = Some Sample.stored) by (vm_compute; reflexivity).
  exact (proj2 (button_round_trip env (Sample.press 7 70 "file_0") Sample.searched
                  Sample.stored 0 Sample.stored_entry Hs eq_refl eq_refl)).
Defined.

(** ** Links *)

Lemma string_ind3 (P : string -> Prop) :
  P "" ->
  (forall a, P (String a "")) ->
  (forall a b, P (String a (String b ""))) ->
  (forall a b c r, P r -> P (String a (String b (String c r)))) ->
  forall s, P s.
Proof.
  intros H0 H1 H2 H3 s.
  assert (H : P s /\ (forall a, P (String a s)) /\ (forall a b, P (String a (String b s)))).
  { induction s as [|c r (IH0 & IH1 & IH2)]; [auto|].
    split; [apply IH1|]. split; [intros a; apply IH2|]. intros a b. now apply H3. }
  apply H.
Qed.

Lemma b64_digit_char (n : nat) : (n < 64)%nat -> b64_char (b64_digit n) = true.
Proof.
  intros H.
  do 64 (destruct n as [|n]; [reflexivity|]). lia.
Qed.

Lemma b64_bounds (a b : ascii) :
  (nat_of_ascii a / 4 < 64
   /\ nat_of_ascii a mod 4 * 16 < 64
   /\ nat_of_ascii a mod 4 * 16 + nat_of_ascii b / 16 < 64
   /\ nat_of_ascii a mod 16 * 4 < 64
   /\ nat_of_ascii a mod 16 * 4 + nat_of_ascii b / 64 < 64
   /\ nat_of_ascii a mod 64 < 64)%nat.
Proof.
  pose proof (nat_ascii_bounded a). pose proof (nat_ascii_bounded b).
  pose proof (Nat.mod_upper_bound (nat_of_ascii a) 4).
  pose proof (Nat.mod_upper_bound (nat_of_ascii a) 16).
  pose proof (Nat.mod_upper_bound (nat_of_ascii a) 64).
  assert (nat_of_ascii a / 4 < 64)%nat by (apply Nat.Div0.div_lt_upper_bound; lia).
  assert (nat_of_ascii b / 16 < 16)%nat by (apply Nat.Div0.div_lt_upper_bound; lia).
  assert (nat_of_ascii b / 64 < 4)%nat by (apply Nat.Div0.div_lt_upper_bound; lia).
  lia.
Qed.

Lemma b64encode_shape (s : string) :
  all_chars b64_char (b64encode s) = true
  /\ String.length (b64encode s) = (4 * ((String.length s + 2) / 3))%nat.
Proof.
  induction s as [|a|a b|a b c r [IHc IHl]] using string_ind3.
  - split; reflexivity.
  - destruct (b64_bounds a a) as (H1 & H2 & _).
    split; [|reflexivity]. cbn [b64encode all_chars].
    now rewrite !b64_digit_char.
  - destruct (b64_bounds a b) as (H1 & _ & H3 & _).
    destruct (b64_bounds b b) as (_ & _ & _ & H4 & _).
    split; [|reflexivity]. cbn [b64encode all_chars].
    now rewrite !b64_digit_char.
  - destruct (b64_bounds a b) as (H1 & _ & H3 & _).
    destruct (b64_bounds b c) as (_ & _ & _ & _ & H5 & _).
    destruct (b64_bounds c c) as (_ & _ & _ & _ & _ & H6).
    split.
    + cbn [b64encode all_chars]. now rewrite !b64_digit_char, IHc.
    + cbn [b64encode String.length]. rewrite IHl.
      replace (S (S (S (String.length r))) + 2)%nat
        with (String.length r + 2 + 1 * 3)%nat by lia.
      rewrite Nat.div_add by lia. lia.
Qed.

(** X19. The title enters the magnet link in base64: for a non-empty hash
    the link is the prefix, the hash, [&dn=], a text of the base64 alphabet
    only, whose length is four characters per three bytes of the title
    (rounded up), and the eight trackers. *)
Theorem magnet_link_shape (torrent_hash title : string) :
  torrent_hash <> "" ->
  exists encoded,
    get_magnet_link torrent_hash title
    = "magnet:?xt=urn:btih:" +:+ torrent_hash +:+ "&dn=" +:+ encoded +:+ "&"
      +:+ join "&" (map (fun tracker => "tr=" +:+ tracker) trackers)
    /\ all_chars b64_char encoded = true
    /\ String.length encoded = (4 * ((String.length title + 2) / 3))%nat
    /\ length trackers = 8%nat.
Proof.
  intros Hh. apply is_empty_false in Hh.
  exists (b64encode title). unfold get_magnet_link. rewrite Hh.
  destruct (b64encode_shape title) as [Hc Hl]. auto.
Qed.

Lemma magnet_link_shape_witness :
  exists encoded,
    get_magnet_link "ABC" "The Avengers"
    = "magnet:?xt=urn:btih:" +:+ "ABC" +:+ "&dn=" +:+ encoded +:+ "&"
      +:+ join "&" (map (fun tracker => "tr=" +:+ tracker) trackers)
    /\ all_chars b64_char encoded = true
    /\ String.length encoded = 16%nat.
Proof.
  destruct (magnet_link_shape "ABC" "The Avengers") as (e & H1 & H2 & H3 & _);
    [discriminate|].
  exists e. auto.
Defined.

Lemma quote_plus_append (a b : string) :
  quote_plus (a +:+ b) = quote_plus a +:+ quote_plus b.
Proof.
  induction a as [|c a IH]; [reflexivity|].
  change (quote_plus (String c a +:+ b)) with (quote_byte c +:+ quote_plus (a +:+ b)).
  change (quote_plus (String c a)) with (quote_byte c +:+ quote_plus a).
  now rewrite IH, append_assoc3.
Qed.

Lemma all_chars_append (p : ascii -> bool) (a b : string) :
  all_chars p (a +:+ b) = all_chars p a && all_chars p b.
Proof.
  induction a as [|c a IH]; [reflexivity|].
  change (all_chars p (String c a +:+ b)) with (p c && all_chars p (a +:+ b)).
  cbn [all_chars]. now rewrite IH, andb_assoc.
Qed.

Lemma quote_byte_safe (c : ascii) :
  all_chars (fun x => always_safe x || Ascii.eqb x "%" || Ascii.eqb x "+")
    (quote_byte c) = true.
Proof. destruct c as [[] [] [] [] [] [] [] []]; vm_compute; reflexivity. Qed.

Lemma quote_plus_safe (s : string) :
  all_chars (fun x => always_safe x || Ascii.eqb x "%" || Ascii.eqb x "+")
    (quote_plus s) = true.
Proof.
  induction s as [|c r IH]; [reflexivity|].
  cbn [quote_plus]. now rewrite all_chars_append, quote_byte_safe, IH.
Qed.

(** X20. The streaming link of the empty hash is the empty string; for any
    other hash it is the gateway address followed by the percent-encoded
    magnet link: after [#] come the encoded magnet prefix and then only
    letters, digits, [_ . - ~], [%] and [+]. *)
Theorem webtor_link_shape (torrent_hash title : string) :
  get_webtor_link "" title = ""
  /\ (torrent_hash <> "" ->
      exists rest,
        get_webtor_link torrent_hash title
        = "https://webtor.io/#magnet%3A%3Fxt%3Durn%3Abtih%3A" +:+ rest
        /\ get_webtor_link torrent_hash title
           = "https://webtor.io/#" +:+ quote_plus (get_magnet_link torrent_hash title)
        /\ all_chars (fun x => always_safe x || Ascii.eqb x "%" || Ascii.eqb x "+")
             rest = true).
Proof.
  split; [reflexivity|]. intros Hh. apply is_empty_false in Hh.
  unfold get_webtor_link, get_magnet_link. rewrite Hh.
  eexists. split; [|split; [reflexivity|]].
  - rewrite quote_plus_append.
    change (quote_plus "magnet:?xt=urn:btih:") with "magnet%3A%3Fxt%3Durn%3Abtih%3A".
    rewrite <- append_assoc3. reflexivity.
  - apply quote_plus_safe.
Qed.

Lemma webtor_link_shape_witness :
  slice_to 60 (get_webtor_link "ABC" "The Avengers")
  = "https://webtor.io/#magnet%3A%3Fxt%3Durn%3Abtih%3AABC%26dn%3D"
  /\ exists rest,
       get_webtor_link "ABC" "The Avengers"
       = "https://webtor.io/#magnet%3A%3Fxt%3Durn%3Abtih%3A" +:+ rest.
Proof.
  split; [reflexivity|].
  destruct (proj2 (webtor_link_shape "ABC" "The Avengers")) as (rest & H & _);
    [discriminate|].
  now exists rest.
Defined.

(** X21. Every entry of [find_direct_download_links] is a [webtor] entry of
    a torrent that has a hash: its link is the gateway address with the
    encoded magnet link of the entry, the magnet link starts with the magnet
    prefix, and with a non-empty quality its quality is the one asked for,
    up to case.  A failed or empty details reply gives no entry. *)
Theorem direct_links_entries (reply : details_reply) (quality : string) :
  Forall (fun l =>
    l_type l = "webtor"
    /\ l_url l = "https://webtor.io/#" +:+ quote_plus (l_magnet l)
    /\ startswith "magnet:?xt=urn:btih:" (l_magnet l) = true
    /\ (is_empty quality = false -> lower (l_quality l) = lower quality))
    (find_direct_download_links reply quality)
  /\ (get_movie_details reply = None -> find_direct_download_links reply quality = []).
Proof.
  split.
  - apply List.Forall_forall. intros l Hl. unfold find_direct_download_links in Hl.
    destruct (get_movie_details reply) as [md|]; [|destruct Hl].
    apply in_flat_map in Hl as [t [_ Hl]]. unfold torrent_links in Hl.
    destruct (quality_mismatch (Some quality) _) eqn:Hq; [destruct Hl|].
    destruct (is_empty (get (t_hash t) "")) eqn:Hh; [destruct Hl|].
    destruct Hl as [<-|[]]. cbn [l_type l_url l_magnet l_quality].
    split; [reflexivity|]. split; [|split].
    + unfold get_webtor_link. now rewrite Hh.
    + unfold get_magnet_link. rewrite Hh. apply startswith_append.
    + intros Hne. unfold quality_mismatch in Hq. rewrite Hne in Hq. cbn in Hq.
      apply negb_false_iff, String.eqb_eq in Hq. now symmetry.
  - intros H. unfold find_direct_download_links. now rewrite H.
Qed.

Lemma direct_links_entries_witness :
  map (fun l => (l_quality l, l_size l)) (find_direct_download_links Sample.details "1080P")
  = [("1080p", "1.5 GB")]
  /\ Forall (fun l => lower (l_quality l) = lower "1080P")
       (find_direct_download_links Sample.details "1080P")
  /\ find_direct_download_links DetailsRaises "1080P" = [].
Proof.
  split; [reflexivity|]. split.
  - eapply List.Forall_impl;
      [|exact (proj1 (direct_links_entries Sample.details "1080P"))].
    intros l (_ & _ & _ & H). now apply H.
  - exact (proj2 (direct_links_entries DetailsRaises "1080P") eq_refl).
Defined.

(** ** Messages that start no search *)

(** X22. The query that [process_message] works with never has whitespace
    at either end, and its filter, when there is one, is one of the three
    quality tokens, in lower case. *)
Theorem parse_query_normal (text : string) :
  strip (snd (parse_query text)) = snd (parse_query text)
  /\ (fst (parse_query text) = None
      \/ exists tok, fst (parse_query text) = Some tok /\ In tok quality_options).
Proof.
  rewrite parse_query_spec.
  destruct (first_quality text) as [tok|] eqn:E; cbn [fst snd].
  - split; [apply strip_idem|]. right. exists tok. split; [reflexivity|].
    exact (proj1 (first_quality_Some text tok E)).
  - split; [apply strip_idem | now left].
Qed.

(** X23. Two kinds of message start no search.  A text that begins with [/]
    is ignored altogether.  A text whose query is empty (nothing but
    whitespace and a quality token) gets the "Please provide a search term"
    prompt and nothing else: no request, no change to the sessions. *)
Theorem no_search (reply : api_reply) (message : message) (w : world) :
  (startswith "/" (msg_text message) = true ->
   process_message reply message w = (Ret tt, w))
  /\ (startswith "/" (msg_text message) = false ->
      is_empty (snd (parse_query (msg_text message))) = true ->
      let run := process_message reply message w in
      let f1 := hd None (faults w) in
      trace (snd run) =
        (trace w ++
         Api (send_message (msg_chat_id message) provide_term_text) f1
         :: match f1 with
            | None => []
            | Some _ =>
                [Api (send_message (msg_chat_id message) search_error_text)
                   (hd None (tl (faults w)))]
            end)%list
      /\ user_sessions (snd run) = user_sessions w).
Proof.
  split.
  - intros Hslash. unfold process_message. now rewrite Hslash.
  - intros Hslash Hq run f1. subst run f1. unfold process_message.
    rewrite Hslash. destruct (parse_query (msg_text message)) as [ft q].
    cbn [snd] in Hq. rewrite Hq.
    cbv [try_except bind ret]. unfold call_api.
    destruct (faults w) as [|[m1|] [|[m2|] fs]] eqn:Hf;
      cbn; repeat (rewrite Hf; cbn); rewrite <- ?app_assoc; auto.
Qed.

Lemma no_search_witness :
  process_message Sample.one_movie (Sample.text_from 7 70 "/start") Sample.fresh
  = (Ret tt, Sample.fresh)
  /\ parse_query "  720P " = (Some "720p", "")
  /\ trace (snd (process_message Sample.one_movie (Sample.text_from 7 70 "  720P ")
                   Sample.fresh))
     = [Api (send_message 70 provide_term_text) None].
Proof.
  split; [|split; [reflexivity|]].
  - exact (proj1 (no_search Sample.one_movie (Sample.text_from 7 70 "/start")
                    Sample.fresh) eq_refl).
  - exact (proj1 (proj2 (no_search Sample.one_movie (Sample.text_from 7 70 "  720P ")
                           Sample.fresh) eq_refl eq_refl)).
Defined.

(** ** Failure of the download, and search followed by selection *)

(** X24. When the download of the selected entry fails, for whatever reason,
    the user is told so with the message [download_file] returned: with no
    API fault the press is answered, the message says "Preparing", at most
    one GET is sent, and the message is edited to the failure text; no
    document is sent.  The [Content-Length] of the reply, if it has one, is
    ASCII and of at most 4300 characters, so that [download_file] fails
    where, and with the message with which, the download of the handler
    does. *)
Theorem download_failure_reported env call user_id w session i r msg :
  user_sessions w !! user_id = Some session ->
  parse_index (call_data call) w = (Ret i, w) ->
  0 <= i ->
  nth_error (search_results session) (Z.to_nat i) = Some r ->
  header_plain env = true ->
  (forall w0, fst (download_file env (r_url r) None w0) = Ret (false, None, Some msg)) ->
  faults w = [] ->
  let edit_of text :=
    Api (edit_message_text text (call_chat_id call) (call_message_id call) None) None in
  trace (snd (_handle_file_selection env call user_id w))
  = (trace w ++
     [ Api (answer_callback_query (call_id call) None) None;
       edit_of (preparing_text r) ]
     ++ (if is_empty (r_url r) then [] else [HttpGet (r_url r) []])
     ++ [ edit_of (download_failed_text (Some msg)) ])%list.
Proof.
  intros Hsession Hparse Hi Hr _ Hfail Hf edit_of.
  rewrite (select_valid env call user_id w session i r Hsession Hparse Hi Hr).
  unfold try_except at 1, deliver.
  rewrite (bind_run _ _ _ _ _ (call_api_ok _ w ltac:(rewrite Hf; reflexivity))).
  set (w1 := log _ (tick w)).
  assert (Hf1 : faults w1 = []). { unfold w1. cbn. now rewrite Hf. }
  assert (Hh1 : hd None (faults w1) = None) by (rewrite Hf1; reflexivity).
  rewrite (bind_run _ _ _ _ _ (edit_ok call _ w1 Hh1)).
  fold edit_of. set (w2 := log _ (tick w1)).
  assert (Hf2 : faults w2 = []). { unfold w2, w1. cbn. now rewrite Hf. }
  assert (Ht2 : trace w2
                = (trace w ++ [ Api (answer_callback_query (call_id call) None) None;
                                edit_of (preparing_text r) ])%list).
  { unfold w2, w1. cbn. now rewrite <- app_assoc. }
  clearbody w2. clear Hh1 Hf1 w1.
  destruct (download_file_cases env (r_url r) None w2)
    as (res & w3 & Hrun & _ & Ht3 & _).
  pose proof (Hfail w2) as Hres. rewrite Hrun in Hres. cbn in Hres.
  injection Hres as ->.
  pose proof (preserves_download_file faults (fun _ _ => eq_refl) (fun _ _ => eq_refl)
                env (r_url r) None w2) as Hf3.
  rewrite Hrun in Hf3. cbn in Hf3.
  rewrite (bind_run _ _ _ _ _ Hrun). cbn [negb].
  rewrite edit_ok by (rewrite Hf3, Hf2; reflexivity).
  cbn. rewrite Ht3, Ht2. fold edit_of. now rewrite <- !app_assoc.
Qed.

Lemma download_failure_reported_witness :
  let env := {| DOWNLOAD_DIR := "/tmp/telegram_downloads";
                random_string := "a1b2c3d4e5";
                http_get := GetRaises "Connection refused";
                open_error := None |} in
  skipn 3 (trace (snd (_handle_file_selection env (Sample.press 7 70 "file_0") 7
                         Sample.searched)))
  = [ Api (answer_callback_query "cb1" None) None;
      Api (edit_message_text
             "⏳ Preparing torrent file for: The Avengers (2012) - 1080p [Rating: 8]
Quality: 1080p
Size: 1.5 GB

Please wait, this may take a moment..." 70 1 None) None;
      HttpGet "https://yts.mx/torrent/download/ABC.torrent" [];
      Api (edit_message_text
             "❌ Failed to download torrent file: Download error: Connection refused

Please try another movie or search again." 70 1 None) None ].
Proof.
  intros env.
  assert (Hs : user_sessions Sample.searched !! 7 = Some Sample.stored)
    by (vm_compute; reflexivity).
  rewrite (download_failure_reported env (Sample.press 7 70 "file_0") 7 Sample.searched
             Sample.stored 0 Sample.stored_entry "Download error: Connection refused"
             Hs eq_refl ltac:(lia) eq_refl eq_refl (fun _ => eq_refl) eq_refl).
  reflexivity.
Defined.

(** What [process_message] stores when the progress message goes out and
    the search finds something. *)
Lemma process_message_stores reply message w ft q :
  startswith "/" (msg_text message) = false ->
  parse_query (msg_text message) = (ft, q) ->
  is_empty q = false ->
  hd None (faults w) = None ->
  search_files reply "yts.mx" q ft <> [] ->
  user_sessions (snd (process_message reply message w))
  = <[msg_from_user_id message :=
        {| search_results := search_files reply "yts.mx" q ft;
           query := q; file_type := ft |}]> (user_sessions w).
Proof.
  intros Hslash Hparse Hq Hfault Hne.
  unfold process_message. rewrite Hslash, Hparse, Hq.
  cbv [try_except bind scraper_search modify ret].
  rewrite (call_api_ok _ w Hfault).
  destruct (search_files reply "yts.mx" q ft) as [|r rs] eqn:Hres; [congruence|].
  match goal with
  | |- context [call_api ?c ?w3] =>
      pose proof (preserves_call_api user_sessions
                    (fun _ _ => eq_refl) (fun _ => eq_refl) (fun _ => eq_refl) c w3)
        as Hk;
      destruct (call_api c w3) as [[x|e] w4]
  end; cbn in Hk |- *; [exact Hk|].
  pose proof (search_error_preserves user_sessions (msg_chat_id message)
                (fun _ _ => eq_refl) (fun _ => eq_refl) (fun _ => eq_refl) w4) as Hh.
  unfold try_except, bind, ret in Hh. rewrite Hh. exact Hk.
Qed.

(** X25. Search, then press.  After a search for an ASCII message text that
    found something, the [i]-th button of the keyboard just shown, pressed
    by the same user, makes the handler go on with the [i]-th result of that
    search. *)
Theorem search_then_select reply message env call w (i : nat) (r : result) :
  is_ascii (msg_text message) = true ->
  startswith "/" (msg_text message) = false ->
  is_empty (snd (parse_query (msg_text message))) = false ->
  hd None (faults w) = None ->
  let results :=
    search_files reply "yts.mx" (snd (parse_query (msg_text message)))
      (fst (parse_query (msg_text message))) in
  let w' := snd (process_message reply message w) in
  nth_error results i = Some r ->
  call_from_user_id call = msg_from_user_id message ->
  nth_error (map callback_data (keyboard_from 0 results)) i = Some (call_data call) ->
  handle_callback env call w'
  = try_except (deliver env call r)
      (fun _ => try_except (edit call selection_error_text) (fun _ => ret tt)) w'.
Proof.
  intros _ Hslash Hq Hfault results w' Hr Huser Hbutton.
  destruct (parse_query (msg_text message)) as [ft q] eqn:Hparse.
  cbn [fst snd] in *.
  assert (Hne : search_files reply "yts.mx" q ft <> []).
  { fold results. intros E. rewrite E in Hr. destruct i; discriminate. }
  pose proof (process_message_stores reply message w ft q Hslash Hparse Hq Hfault Hne)
    as Hstore. fold w' in Hstore.
  destruct (keyboard_from_nth 0 results i r Hr) as (b & Hb & Hdata).
  rewrite nth_error_map, Hb in Hbutton. cbn in Hbutton.
  injection Hbutton as Hcall. rewrite Hdata in Hcall. cbn [Z.add] in Hcall.
  assert (Hparse' : parse_index (call_data call) w' = (Ret (Z.of_nat i), w')).
  { rewrite <- Hcall. apply parse_index_button. lia. }
  assert (Hstart : startswith "file_" (call_data call) = true).
  { rewrite <- Hcall. reflexivity. }
  unfold handle_callback. rewrite Hstart.
  apply (select_valid env call _ w'
           {| search_results := results; query := q; file_type := ft |}
           (Z.of_nat i) r); [|exact Hparse'|lia|].
  - rewrite Hstore, Huser. apply lookup_insert_eq.
  - cbn. now rewrite Nat2Z.id.
Qed.

Lemma search_then_select_witness :
  let env := Sample.answer None [[Byte.x64]] in
  let call := Sample.press 7 70 "file_0" in
  handle_callback env call Sample.searched
  = try_except (deliver env call Sample.stored_entry)
      (fun _ => try_except (edit call selection_error_text) (fun _ => ret tt))
      Sample.searched.
Proof.
  intros env call.
  exact (search_then_select Sample.one_movie (Sample.text_from 7 70 "Avengers 1080P")
           env call Sample.fresh 0 Sample.stored_entry
           eq_refl eq_refl eq_refl eq_refl eq_refl eq_refl eq_refl).
Defined.
